(** * dockmon: the stats history and the derived metrics

    A shallow embedding of the part of [main.go] that keeps the rolling
    history of docker stats per container ([dockerStats], [containerList])
    and derives the displayed numbers from it ([cpuPercent],
    [genCPUSystemUsage], [genNetwork], [rxDiffer], [txDiffer],
    [containerPercentMemory], [containerDetails]).

    Conventions.
    - The counters of [dockerclient.Stats] are Go [uint64]; they are
      integers of [Z] in the range [0, 2^64) and every operation on them
      writes its wrap-around out.  Go's [int] is the 64-bit signed integer
      of the amd64 and arm64 ports.
    - [float64] is IEEE-754 binary64, taken from the standard library's
      [SpecFloat] with [prec = 53] and [emax = 1024].
    - A Go run-time panic is the [Panic] outcome of [result]; nothing in
      [main.go] recovers from one.
    - The history holds pointers to snapshots that are never written to
      after they are stored, so a snapshot is modelled by its value. *)

From Stdlib Require Import ZArith QArith Lia SpecFloat.
From stdpp Require Import gmap strings list fin_maps pretty sorting.

Local Open Scope Z_scope.

(** ** Outcomes of Go code that may panic *)

Inductive panic :=
  | DivideByZero
  | IndexOutOfRange
  | SliceBoundsOutOfRange.

Inductive result (A : Type) :=
  | Ok (a : A)
  | Panic (p : panic).
Arguments Ok {A} a.
Arguments Panic {A} p.

Definition rbind {A B} (r : result A) (k : A → result B) : result B :=
  match r with
  | Ok a => k a
  | Panic p => Panic p
  end.

Notation "'do!' x ← r ; k" := (rbind r (λ x, k))
  (at level 10, x name, r at level 100, k at level 200).

(** ** Machine integers *)

Module U64.
Definition modulus : Z := 2 ^ 64.
Definition wf (x : Z) : Prop := 0 ≤ x < modulus.
Definition wrap (x : Z) : Z := x mod modulus.
Definition sub (x y : Z) : Z := wrap (x - y).
Definition mul (x y : Z) : Z := wrap (x * y).
(** [x / y] on unsigned operands: the run-time panics on a zero divisor. *)
Definition div (x y : Z) : result Z :=
  if y =? 0 then Panic DivideByZero else Ok (x / y).
End U64.

Module Int.
Definition min_int : Z := - 2 ^ 63.
Definition max_int : Z := 2 ^ 63 - 1.
Definition wf (x : Z) : Prop := min_int ≤ x ≤ max_int.
(** [int(x)] for [x : uint64]: the same 64 bits read as two's complement. *)
Definition of_u64 (x : Z) : Z :=
  if x <? 2 ^ 63 then x else x - 2 ^ 64.
(** [x * y] on [int], with its wrap-around. *)
Definition mul (x y : Z) : Z := of_u64 (U64.wrap (x * y)).
End Int.

(** ** float64 *)

Module F64.
Definition prec : Z := 53.
Definition emax : Z := 1024.
Abbreviation t := spec_float.

Definition zero : t := S754_zero false.
(** [float64(x)] for an integer [x], rounded to nearest even. *)
Definition of_Z (x : Z) : t := binary_normalize prec emax x 0 false.
Definition div (x y : t) : t := SFdiv prec emax x y.
Definition mul (x y : t) : t := SFmul prec emax x y.
(** [x > y] *)
Definition gt (x y : t) : bool := SFltb y x.

(** The integer part of a finite float, rounded toward zero. *)
Definition trunc (x : t) : option Z :=
  match x with
  | S754_zero _ => Some 0
  | S754_finite s m e =>
      let a := match e with
               | Zneg p => Z.pos m / 2 ^ Z.pos p
               | _ => Z.pos m * 2 ^ e
               end in
      Some (if s then - a else a)
  | _ => None
  end.

(** [int(x)] for [x : float64].  The language leaves the result open when
    the integer part does not fit; amd64's CVTTSD2SQ then gives the
    "integer indefinite" value, the smallest [int]. *)
Definition to_int (x : t) : Z :=
  match trunc x with
  | Some v => if (Int.min_int <=? v) && (v <=? Int.max_int) then v else Int.min_int
  | None => Int.min_int
  end.
End F64.

(** ** The data of the docker client

    The fields of [dockerclient.Stats] and [dockerclient.Container] that
    [main.go] reads.  The counters are [uint64] in the client library:
    [containerValueMemory] assigns [MemoryStats.Usage] to a [uint64]
    variable, and the differences of the others are converted with
    [int(...)] and [float64(...)] before use. *)

(** [Read] is a [time.Time], and [dockerStats] compares two of them with
    [==].  On a struct that compares every field: the two words that hold
    the instant and the pointer to the [Location].  For a time without a
    reading of the monotonic clock, as the JSON decoder gives it, [wall]
    holds the nanoseconds and [ext] the seconds since the start of year 1;
    [loc] is the address the pointer holds, [0] for nil, which is UTC.  Two
    times of one instant are [!=] when their locations are two pointers. *)
Module Time.
Record t := { wall : Z; ext : Z; loc : Z }.

(** [a == b] *)
Definition eqb (a b : t) : bool :=
  (wall a =? wall b) && (ext a =? ext b) && (loc a =? loc b).

(** The instant [sec] seconds after the start of year 1, in UTC. *)
Definition utc (sec : Z) : t := {| wall := 0; ext := sec; loc := 0 |}.

(** The same instant, with the [Location] at the address [p]. *)
Definition in_loc (p : Z) (x : t) : t :=
  {| wall := wall x; ext := ext x; loc := p |}.
End Time.

Global Instance Time_eq_dec : EqDecision Time.t.
Proof. solve_decision. Defined.

Record cpu_usage := { PercpuUsage : list Z; TotalUsage : Z }.
Record cpu_stats := { CpuUsage : cpu_usage; SystemUsage : Z }.
Record memory_stats := { Usage : Z; Limit : Z }.
Record network_stats := { RxBytes : Z; TxBytes : Z }.
Record Stats := {
  Read : Time.t;
  NetworkStats : network_stats;
  CpuStats : cpu_stats;
  MemoryStats : memory_stats;
}.

Record Container := { Id : string; Names : list string }.

(** Every counter of a snapshot is a [uint64]. *)
Definition stats_wf (s : Stats) : Prop :=
  U64.wf (TotalUsage (CpuUsage (CpuStats s))) ∧
  U64.wf (SystemUsage (CpuStats s)) ∧
  U64.wf (Usage (MemoryStats s)) ∧ U64.wf (Limit (MemoryStats s)) ∧
  U64.wf (RxBytes (NetworkStats s)) ∧ U64.wf (TxBytes (NetworkStats s)).

(** ** Slices and loops *)

Definition len {A} (l : list A) : Z := Z.of_nat (length l).

(** [l[i]] *)
Definition index {A} (l : list A) (i : Z) : result A :=
  if i <? 0 then Panic IndexOutOfRange
  else match l !! Z.to_nat i with
       | Some x => Ok x
       | None => Panic IndexOutOfRange
       end.

(** [l[n:]] *)
Definition slice_from {A} (n : nat) (l : list A) : result (list A) :=
  if (n <=? length l)%nat then Ok (drop n l) else Panic SliceBoundsOutOfRange.

(** [for i := range xs { body }] over the indices [i, i + n). *)
Fixpoint for_range_from {St} (i n : nat) (body : nat → St → result St) (acc : St)
  : result St :=
  match n with
  | O => Ok acc
  | S n' => do! acc' ← body i acc; for_range_from (S i) n' body acc'
  end.

Definition for_range {St} (n : nat) (body : nat → St → result St) (acc : St)
  : result St :=
  for_range_from 0 n body acc.

(** ** The program state

    The package-level variables of [main.go], the width of the panel on
    display ([ui.Body.Width]) and, for the docker client, the stats monitors
    it runs: [StartMonitorStats] starts one more for the container,
    [StopAllMonitorStats] ends them all. *)

Record state := {
  allcontainers : list Container;
  containerDetailsIndex : Z;
  containerDetailsID : string;
  statsData : gmap string (list Stats);
  bodyWidth : Z;
  monitors : list string;
}.

Definition set_statsData (m : gmap string (list Stats)) (s : state) : state :=
  {| allcontainers := allcontainers s;
     containerDetailsIndex := containerDetailsIndex s;
     containerDetailsID := containerDetailsID s;
     statsData := m;
     bodyWidth := bodyWidth s;
     monitors := monitors s |}.

(** [dat, _ := statsData[id]]: a missing key reads as the nil slice. *)
Definition stats_of (m : gmap string (list Stats)) (id : string) : list Stats :=
  default [] (m !! id).

(** ** [dockerStats]: a snapshot arrives *)

Definition same_read (dat : list Stats) (stats : Stats) : bool :=
  match last dat with
  | Some l => Time.eqb (Read l) (Read stats)
  | None => false
  end.

Definition dockerStats (id : string) (stats : Stats) (s : state) : result state :=
  let dat := stats_of (statsData s) id in
  do! dat ← (if len dat >? bodyWidth s - 2 then slice_from 1 dat else Ok dat);
  if same_read dat stats then Ok s
  else Ok (set_statsData (<[id := dat ++ [stats]]> (statsData s)) s).

(** Snapshots for one container arriving one after the other. *)
Fixpoint dockerStats_all (id : string) (l : list Stats) (s : state) : result state :=
  match l with
  | [] => Ok s
  | x :: l' => do! s' ← dockerStats id x s; dockerStats_all id l' s'
  end.

(** The number of columns inside the border, which [dockerStats] compares
    the length of a history with. *)
Definition capacity (s : state) : Z := bodyWidth s - 2.

(** What a reader finds for [id] once the snapshots of [l] have arrived. *)
Definition history_after (id : string) (l : list Stats) (s : state)
  : option (list Stats) :=
  match dockerStats_all id l s with
  | Ok s' => Some (stats_of (statsData s') id)
  | Panic _ => None
  end.

(** No snapshot of [l] carries the timestamp of the one before it; [o] is
    the snapshot before the first. *)
Fixpoint fresh_reads (o : option Stats) (l : list Stats) : Prop :=
  match l with
  | [] => True
  | x :: l' =>
      match o with Some p => Read p ≠ Read x | None => True end
      ∧ fresh_reads (Some x) l'
  end.

(** ** [containerList]: the list of containers is refreshed *)

(** [fmt.Sprintf("[%d] %s:%s", idx, c.Names[0], c.Id)], cut to [maxlen].
    The slice [s[:maxlen-3]] of a longer text panics when [maxlen] is below
    3; [main.go] passes 30 and 20. *)
Definition genContainerListName (idx : nat) (c : Container) (maxlen : nat)
  : result string :=
  do! name ← index (Names c) 0;
  let s := "[" +:+ pretty idx +:+ "] " +:+ name +:+ ":" +:+ Id c in
  if (maxlen <? String.length s)%nat
  then if (maxlen <? 3)%nat then Panic SliceBoundsOutOfRange
       else Ok (String.substring 0 (maxlen - 3) s +:+ "...")
  else Ok s.

(** What the loop over the containers builds up. *)
Record list_acc := {
  conts : list string;
  detailsID : string;
  newstats : gmap string (list Stats);
  started : list string;
}.

Definition containerList_body (containers : list Container) (s : state)
    (i : nat) (a : list_acc) : result list_acc :=
  do! c ← index containers (Z.of_nat i);
  do! name ← genContainerListName i c 30;
  let id' := if Z.of_nat i =? containerDetailsIndex s then Id c else detailsID a in
  match statsData s !! Id c with
  | Some stat =>
      Ok {| conts := conts a ++ [name]; detailsID := id';
            newstats := <[Id c := stat]> (newstats a); started := started a |}
  | None =>
      Ok {| conts := conts a ++ [name]; detailsID := id';
            newstats := newstats a; started := started a ++ [Id c] |}
  end.

(** The widget of the container list. *)
Record ui_list := { Items : list string; Height : Z }.

(** [listed] is what [dc.ListContainers] gave: [None] for an error. *)
Definition containerList (listed : option (list Container)) (s : state)
  : result (state * option ui_list) :=
  match listed with
  | None =>
      Ok ({| allcontainers := allcontainers s;
             containerDetailsIndex := containerDetailsIndex s;
             containerDetailsID := "";
             statsData := statsData s;
             bodyWidth := bodyWidth s;
             monitors := [] |}, None)
  | Some containers =>
      do! a ← for_range (length containers) (containerList_body containers s)
                {| conts := []; detailsID := containerDetailsID s;
                   newstats := ∅; started := [] |};
      let empty := len containers =? 0 in
      Ok ({| allcontainers := containers;
             containerDetailsIndex := containerDetailsIndex s;
             containerDetailsID := if empty then "" else detailsID a;
             statsData := newstats a;
             bodyWidth := bodyWidth s;
             monitors := if empty then [] else monitors s ++ started a |},
          Some {| Items := conts a; Height := len (conts a) + 2 |})
  end.

(** The state after a refresh, when it does not panic. *)
Definition reconcile (containers : list Container) (s : state) : option state :=
  match containerList (Some containers) s with
  | Ok (s', _) => Some s'
  | Panic _ => None
  end.

(** ** [containerDetails]: the details panel

    The panel shows the lines of one inspected container, or only its border
    ([list.Height = 2]).  [inspect id] says whether [dc.InspectContainer]
    answers for [id]; on an error the panel is left as it is. *)

Inductive details_panel :=
  | DetailsEmpty
  | DetailsOf (id : string).

Definition containerDetails (inspect : string → bool) (s : state)
    (panel : details_panel) : details_panel :=
  if String.eqb (containerDetailsID s) "" then DetailsEmpty
  else if inspect (containerDetailsID s) then DetailsOf (containerDetailsID s)
  else panel.

(** The key handler: a digit selects the index. *)
Definition select_index (key : Z) (s : state) : state :=
  {| allcontainers := allcontainers s;
     containerDetailsIndex := key;
     containerDetailsID := containerDetailsID s;
     statsData := statsData s;
     bodyWidth := bodyWidth s;
     monitors := monitors s |}.

(** ** The derived metrics *)

Definition networkDiffer := network_stats → network_stats → Z.

Definition rxDiffer : networkDiffer := λ cur prev,
  Int.of_u64 (U64.sub (RxBytes cur) (RxBytes prev)).

Definition txDiffer : networkDiffer := λ cur prev,
  Int.of_u64 (U64.sub (TxBytes cur) (TxBytes prev)).

(** The body of [cpuPercent] once [mystat] and [prevstat] are read. *)
Definition cpuPercent_of (mystat prevstat : Stats) : Z :=
  let cpudelta :=
    F64.of_Z (U64.sub (TotalUsage (CpuUsage (CpuStats mystat)))
                      (TotalUsage (CpuUsage (CpuStats prevstat)))) in
  let sysdelta :=
    F64.of_Z (U64.sub (SystemUsage (CpuStats mystat))
                      (SystemUsage (CpuStats prevstat))) in
  let p :=
    if F64.gt sysdelta F64.zero && F64.gt cpudelta F64.zero
    then F64.mul
           (F64.mul (F64.div cpudelta sysdelta)
                    (F64.of_Z (len (PercpuUsage (CpuUsage (CpuStats mystat))))))
           (F64.of_Z 100)
    else F64.zero in
  F64.to_int p.

Definition cpuPercent (stats : list Stats) (idx : Z) : result Z :=
  do! mystat ← index stats idx;
  do! prevstat ← index stats (idx - 1);
  Ok (cpuPercent_of mystat prevstat).

Definition genCPUSystemUsage (stats : list Stats) : result (list Z) :=
  for_range (length stats)
    (λ i res, if (0 <? i)%nat
              then do! v ← cpuPercent stats (Z.of_nat i); Ok (res ++ [v])
              else Ok res)
    [].

Definition genNetwork (stats : list Stats) (differ : networkDiffer)
  : result (list Z) :=
  for_range (length stats)
    (λ i res, if (0 <? i)%nat
              then do! stat1 ← index stats (Z.of_nat i);
                   do! stat2 ← index stats (Z.of_nat i - 1);
                   Ok (res ++ [differ (NetworkStats stat1) (NetworkStats stat2)])
              else Ok res)
    [].

(** ** [containerPercentMemory]: the bar chart of the memory in use *)

(** [int(100 * memused / memlim)] on [uint64] operands. *)
Definition memusedP (memused memlim : Z) : result Z :=
  do! q ← U64.div (U64.mul 100 memused) memlim;
  Ok (Int.of_u64 q).

Definition findMaxInt (vals : list Z) : Z :=
  match vals with
  | [] => 0
  | v0 :: _ => foldl (λ max v, if v >? max then v else max) v0 vals
  end.

(** The labels and the data of the chart, and the argument of the call of
    [mem.SetMax] that ends the drawer. *)
Record bar_chart := { DataLabels : list string; Data : list Z; SetMax : Z }.

(** [fmt.Sprintf("[%2d]", i)] *)
Definition barLabel (i : nat) : string :=
  let d := pretty i in
  "[" +:+ (if (String.length d <? 2)%nat then " " +:+ d else d) +:+ "]".

Definition containerPercentMemory (s : state) : result bar_chart :=
  do! lu ← for_range (length (allcontainers s))
    (λ i (lu : list string * list Z),
       do! c ← index (allcontainers s) (Z.of_nat i);
       let labels := lu.1 ++ [barLabel i] in
       let dat := stats_of (statsData s) (Id c) in
       if len dat >? 1
       then do! last ← index dat (len dat - 1);
            do! p ← memusedP (Usage (MemoryStats last)) (Limit (MemoryStats last));
            Ok (labels, lu.2 ++ [p])
       else Ok (labels, lu.2))
    ([], []);
  let mx := findMaxInt lu.2 in
  Ok {| DataLabels := lu.1; Data := lu.2;
        SetMax := if mx <? 30 then Int.mul mx 3 else 100 |}.

(** ** Reference values

    The formulas of the specification read over exact numbers, and the
    snapshots of its examples. *)

(** [(cpuDelta / sysDelta) * onlineCpuCount * 100] as a rational number,
    truncated toward zero. *)
Definition cpu_percent_exact (cpuDelta sysDelta onlineCpuCount : Z) : Z :=
  let q := (inject_Z cpuDelta / inject_Z sysDelta
            * inject_Z onlineCpuCount * inject_Z 100)%Q in
  Z.quot (Qnum q) (Z.pos (Qden q)).

(** The same formula with every step in binary64, rounded to nearest: the
    float that [cpuPercent] converts to [int]. *)
Definition cpu_percent_binary64 (cpuDelta sysDelta onlineCpuCount : Z) : F64.t :=
  F64.mul (F64.mul (F64.div (F64.of_Z cpuDelta) (F64.of_Z sysDelta))
                   (F64.of_Z onlineCpuCount))
          (F64.of_Z 100).

(** One value per adjacent pair [(l[i], l[i+1])], in the order of [l]. *)
Definition adjacent {A B} (f : A → A → B) (l : list A) : list B :=
  zip_with f l (drop 1 l).

(** The last [n] elements of [l], in the order of [l]. *)
Definition take_last {A} (n : nat) (l : list A) : list A :=
  drop (length l - n) l.

(** A snapshot with [ncpu] entries of per-cpu usage, read [read] seconds
    after the start of year 1, UTC. *)
Definition snapshot (read total system : Z) (ncpu : nat)
    (usage limit rx tx : Z) : Stats :=
  {| Read := Time.utc read;
     NetworkStats := {| RxBytes := rx; TxBytes := tx |};
     CpuStats := {| CpuUsage := {| PercpuUsage := replicate ncpu 0;
                                   TotalUsage := total |};
                    SystemUsage := system |};
     MemoryStats := {| Usage := usage; Limit := limit |} |}.

(** A state with the given containers, histories and width. *)
Definition state_of (cs : list Container) (idx : Z) (id : string)
    (m : gmap string (list Stats)) (w : Z) : state :=
  {| allcontainers := cs; containerDetailsIndex := idx;
     containerDetailsID := id; statsData := m; bodyWidth := w;
     monitors := [] |}.

(** The snapshots of the examples: only the counters at stake differ. *)
Definition cpu_snapshot (read total system : Z) (ncpu : nat) : Stats :=
  snapshot read total system ncpu 0 0 0 0.
Definition net_snapshot (read rx tx : Z) : Stats :=
  snapshot read 0 0 1 0 0 rx tx.
Definition mem_snapshot (read usage limit : Z) : Stats :=
  snapshot read 0 0 1 usage limit 0 0.

(** The snapshot [x] with its timestamp in the [Location] at [p]. *)
Definition in_location (p : Z) (x : Stats) : Stats :=
  {| Read := Time.in_loc p (Read x);
     NetworkStats := NetworkStats x;
     CpuStats := CpuStats x;
     MemoryStats := MemoryStats x |}.

Definition container_A : Container := {| Id := "A"; Names := ["/a"] |}.
Definition container_B : Container := {| Id := "B"; Names := ["/b"] |}.

(** ** What a refresh computes, in closed form *)

(** The container picked by the index, or the one picked before. *)
Definition selected (cs : list Container) (idx : Z) (id0 : string) : string :=
  if idx <? 0 then id0
  else match cs !! Z.to_nat idx with
       | Some c => Id c
       | None => id0
       end.

(** The same, as the loop finds it from position [i] on. *)
Fixpoint selected_from (i : nat) (cs : list Container) (idx : Z) (id0 : string)
  : string :=
  match cs with
  | [] => id0
  | c :: cs' => selected_from (S i) cs' idx (if Z.of_nat i =? idx then Id c else id0)
  end.

(** The histories carried over to the new map. *)
Definition keep (old : gmap string (list Stats))
    (m : gmap string (list Stats)) (c : Container) : gmap string (list Stats) :=
  match old !! Id c with
  | Some stat => <[Id c := stat]> m
  | None => m
  end.

Definition kept (cs : list Container) (old : gmap string (list Stats))
  : gmap string (list Stats) :=
  foldl (keep old) ∅ cs.

(** The listed containers without a history, for which a monitor is
    started. *)
Definition missing (cs : list Container) (old : gmap string (list Stats))
  : list string :=
  filter (λ id, old !! id = None) (Id <$> cs).

Definition reconciled (cs : list Container) (s : state) : state :=
  {| allcontainers := cs;
     containerDetailsIndex := containerDetailsIndex s;
     containerDetailsID :=
       if len cs =? 0 then "" else selected cs (containerDetailsIndex s)
                                     (containerDetailsID s);
     statsData := kept cs (statsData s);
     bodyWidth := bodyWidth s;
     monitors := if len cs =? 0 then []
                 else monitors s ++ missing cs (statsData s) |}.

(** ** [memAsString]: a number of bytes for display *)

Definition kb : Z := 1024.
Definition mb : Z := kb * 1024.
Definition gb : Z := mb * 1024.
Definition tb : Z := gb * 1024.

Definition memAsString (val : Z) : string :=
  if tb <=? val then pretty (Int.of_u64 (val / tb)) +:+ "tb"
  else if gb <=? val then pretty (Int.of_u64 (val / gb)) +:+ "gb"
  else if mb <=? val then pretty (Int.of_u64 (val / mb)) +:+ "mb"
  else if kb <=? val then pretty (Int.of_u64 (val / kb)) +:+ "kb"
  else pretty val +:+ "b".

(** [uint64(x)] for [x : int]. *)
Definition uint64_of_int (x : Z) : Z := U64.wrap x.

(** [x - y] on [int], with its wrap-around. *)
Definition int_sub (x y : Z) : Z := Int.of_u64 (U64.wrap (x - y)).

(** [%5s] and the like: spaces on the left up to the width. *)
Definition pad_left (width : nat) (s : string) : string :=
  String.concat "" (replicate (width - String.length s) " ") +:+ s.

(** [%s] of a slice of strings. *)
Definition sprint_strings (l : list string) : string :=
  "[" +:+ String.concat " " l +:+ "]".

(** ** The sparkline drawers *)

Module Sparkline.
Record t := { Title : string; Data : list Z; Height : Z }.
End Sparkline.

Module Sparklines.
Record t := { Lines : list Sparkline.t; Height : Z }.
End Sparklines.

(** What [containerCPU] does for the container [c]. *)
Definition containerCPU_step (s : state) (c : Container) (cpus : Sparklines.t)
  : result Sparklines.t :=
  let dat := stats_of (statsData s) (Id c) in
  do! lastVal ← (if len dat >? 1 then cpuPercent dat (len dat - 1) else Ok 0);
  do! data ← genCPUSystemUsage dat;
  Ok {| Sparklines.Lines :=
          Sparklines.Lines cpus ++
          [{| Sparkline.Title :=
                "[" +:+ pretty lastVal +:+ " %] " +:+ sprint_strings (Names c)
                +:+ ":" +:+ Id c +:+ " ";
              Sparkline.Data := data;
              Sparkline.Height := 2 |}];
        Sparklines.Height := Sparklines.Height cpus + 3 |}.

Definition containerCPU (s : state) : result Sparklines.t :=
  for_range (length (allcontainers s))
    (λ i cpus, do! c ← index (allcontainers s) (Z.of_nat i);
               containerCPU_step s c cpus)
    {| Sparklines.Lines := []; Sparklines.Height := 2 |}.

(** What [containerNetworkBytes] does for the container [c] at [idx]. *)
Definition containerNetworkBytes_step (differ : networkDiffer) (s : state)
    (idx : nat) (c : Container) (netw : Sparklines.t) : result Sparklines.t :=
  let dat := stats_of (statsData s) (Id c) in
  if len dat >? 1
  then do! data ← genNetwork dat differ;
       do! tx ← (if len data >? 0 then index data (len data - 1) else Ok 0);
       do! name ← genContainerListName idx c 20;
       Ok {| Sparklines.Lines :=
               Sparklines.Lines netw ++
               [{| Sparkline.Title :=
                     "[" +:+ pad_left 5 (memAsString (uint64_of_int tx))
                     +:+ "] " +:+ name;
                   Sparkline.Data := data;
                   Sparkline.Height := 2 |}];
             Sparklines.Height := Sparklines.Height netw + 3 |}
  else Ok netw.

Definition containerNetworkBytes (differ : networkDiffer) (s : state)
  : result Sparklines.t :=
  for_range (length (allcontainers s))
    (λ idx netw, do! c ← index (allcontainers s) (Z.of_nat idx);
                 containerNetworkBytes_step differ s idx c netw)
    {| Sparklines.Lines := []; Sparklines.Height := 2 |}.

(** ** [containerValueMemory]: the list of the memory in use *)

Definition containerValueMemory_step (s : state) (i : nat) (c : Container)
    (labels : list string) : result (list string) :=
  let dat := stats_of (statsData s) (Id c) in
  do! memused ← (if len dat >? 1
                 then do! last ← index dat (len dat - 1);
                      Ok (Usage (MemoryStats last))
                 else Ok 0);
  Ok (labels ++ [barLabel i +:+ ": " +:+ memAsString memused]).

Definition containerValueMemory (s : state) : result ui_list :=
  do! labels ← for_range (length (allcontainers s))
                 (λ i labels, do! c ← index (allcontainers s) (Z.of_nat i);
                              containerValueMemory_step s i c labels)
                 [];
  Ok {| Items := labels; Height := len labels + 2 |}.

(** ** [ContainerMemory] of the earlier version: used and free percent *)

Definition ContainerMemory_step (s : state) (i : nat) (c : Container)
    (acc : list string * list Z * list Z) : result (list string * list Z * list Z) :=
  let labels := acc.1.1 ++ ["[" +:+ pretty i +:+ "]"] in
  let dat := stats_of (statsData s) (Id c) in
  if len dat >? 1
  then do! last ← index dat (len dat - 1);
       do! p ← memusedP (Usage (MemoryStats last)) (Limit (MemoryStats last));
       Ok (labels, acc.1.2 ++ [p], acc.2 ++ [int_sub 100 p])
  else Ok (labels, acc.1.2, acc.2).

(** The labels, [mem.Data[0]] (used) and [mem.Data[1]] (free). *)
Definition ContainerMemory (s : state) : result (list string * list Z * list Z) :=
  for_range (length (allcontainers s))
    (λ i acc, do! c ← index (allcontainers s) (Z.of_nat i);
              ContainerMemory_step s i c acc)
    ([], [], []).

(** ** The stack of panels and the keyboard *)

Inductive grid := MainGrid | DetailsGrid.

(** [uiStack], the grid [ui.Body] points to ([None] for the body termui
    starts with) and whether [ui.Loop] still runs. *)
Record panels := {
  uiStack : list grid;
  Body : option grid;
  running : bool;
}.

Definition set_bodyWidth (w : Z) (s : state) : state :=
  {| allcontainers := allcontainers s;
     containerDetailsIndex := containerDetailsIndex s;
     containerDetailsID := containerDetailsID s;
     statsData := statsData s;
     bodyWidth := w;
     monitors := monitors s |}.

(** [termWidth] is what [ui.TermWidth()] answers. *)
Definition pushPanel (termWidth : Z) (p : grid) (a : state * panels)
  : state * panels :=
  (set_bodyWidth termWidth a.1,
   {| uiStack := uiStack a.2 ++ [p]; Body := Some p; running := running a.2 |}).

(** [None] is the error "no more panels in stack". *)
Definition popPanel (termWidth : Z) (a : state * panels)
  : state * panels * option grid :=
  if len (uiStack a.2) <? 2 then (a, None)
  else
    let stack := take (length (uiStack a.2) - 1) (uiStack a.2) in
    match last stack with
    | Some l =>
        (set_bodyWidth termWidth a.1,
         {| uiStack := stack; Body := Some l; running := running a.2 |}, Some l)
    | None => (a, None)
    end.

(** The handler of [/sys/kbd/]; [key] is the byte [ch.KeyStr[0]]. *)
Definition handle_key (termWidth : Z) (key : Z) (a : state * panels)
  : state * panels :=
  let a :=
    if key =? 113 (* 'q' *)
    then match popPanel termWidth a with
         | (a', Some _) => a'
         | (a', None) =>
             (a'.1, {| uiStack := uiStack a'.2; Body := Body a'.2;
                       running := false |})
         end
    else a in
  if (48 <=? key) && (key <=? 57) (* '0' .. '9' *)
  then pushPanel termWidth DetailsGrid (select_index (key - 48) a.1, a.2)
  else a.

Fixpoint handle_keys (termWidth : Z) (keys : list Z) (a : state * panels)
  : state * panels :=
  match keys with
  | [] => a
  | k :: keys' => handle_keys termWidth keys' (handle_key termWidth k a)
  end.

(** The handler of [/sys/wnd/resize]. *)
Definition handle_resize (termWidth : Z) (a : state * panels) : state * panels :=
  (set_bodyWidth termWidth a.1, a.2).

(** [main] up to [ui.Loop]: the main panel is pushed on the empty stack. *)
Definition start (termWidth : Z) (s : state) : state * panels :=
  pushPanel termWidth MainGrid
    (s, {| uiStack := []; Body := None; running := true |}).

(** What holds of the panels after every key: the main panel is at the
    bottom of the stack, the body is the panel on top, and its width is the
    width of the terminal. *)
Definition panels_ok (termWidth : Z) (a : state * panels) : Prop :=
  head (uiStack a.2) = Some MainGrid ∧ last (uiStack a.2) = Body a.2 ∧
  bodyWidth a.1 = termWidth.

(** ** [genVolumes]: the volumes of a container, sorted by name *)

Definition string_le (a b : string) : Prop := String.leb a b = true.

Global Instance string_le_dec (a b : string) : Decision (string_le a b).
Proof. unfold string_le. apply _. Defined.

(** [sort.Strings] *)
Definition sort_strings (l : list string) : list string :=
  merge_sort string_le l.

(** [keys] is the order in which [range di.Volumes] happens to yield the
    keys of the map. *)
Definition genVolumes (keys : list string) (volumes : gmap string string)
  : list string :=
  (λ k, k +:+ " -> " +:+ default "" (volumes !! k) +:+ " ") <$> sort_strings keys.

(** ** Closed forms of what the drawers show *)

(** The snapshot the memory drawers read: the last one of a history of at
    least two. *)
Definition latest (dat : list Stats) : option Stats :=
  if 1 <? len dat then last dat else None.

(** The CPU percents of a history, one per adjacent pair. *)
Definition cpu_series (dat : list Stats) : list Z :=
  adjacent (λ prev cur, cpuPercent_of cur prev) dat.

(** The differences of a history, one per adjacent pair. *)
Definition net_series (differ : networkDiffer) (dat : list Stats) : list Z :=
  adjacent (λ prev cur, differ (NetworkStats cur) (NetworkStats prev)) dat.

Definition cpu_line (s : state) (c : Container) : Sparkline.t :=
  let data := cpu_series (stats_of (statsData s) (Id c)) in
  {| Sparkline.Title :=
       "[" +:+ pretty (default 0 (last data)) +:+ " %] "
       +:+ sprint_strings (Names c) +:+ ":" +:+ Id c +:+ " ";
     Sparkline.Data := data;
     Sparkline.Height := 2 |}.

(** The elements of a slice with their positions, counted from [i]. *)
Fixpoint indexed_from {A} (i : nat) (l : list A) : list (nat * A) :=
  match l with
  | [] => []
  | x :: l' => (i, x) :: indexed_from (S i) l'
  end.

(** The line of [containerNetworkBytes] for the container [c], whose entry
    in the list is [name]. *)
Definition net_line (differ : networkDiffer) (s : state) (c : Container)
    (name : string) : Sparkline.t :=
  let data := net_series differ (stats_of (statsData s) (Id c)) in
  {| Sparkline.Title :=
       "[" +:+ pad_left 5 (memAsString (uint64_of_int (default 0 (last data))))
       +:+ "] " +:+ name;
     Sparkline.Data := data;
     Sparkline.Height := 2 |}.

(** The container at a position of the list has at least two snapshots. *)
Definition has_series (s : state) (ic : nat * Container) : Prop :=
  1 < len (stats_of (statsData s) (Id ic.2)).

Global Instance has_series_dec (s : state) (ic : nat * Container) :
  Decision (has_series s ic).
Proof. unfold has_series. apply _. Defined.

Definition value_label (s : state) (i : nat) (c : Container) : string :=
  barLabel i +:+ ": "
  +:+ memAsString (match latest (stats_of (statsData s) (Id c)) with
                   | Some l => Usage (MemoryStats l)
                   | None => 0
                   end).

(** The latest snapshot of [c] reports the limit 0. *)
Definition zero_limit (s : state) (c : Container) : bool :=
  match latest (stats_of (statsData s) (Id c)) with
  | Some l => Limit (MemoryStats l) =? 0
  | None => false
  end.

(** [int(100 * memused / memlim)] for the latest snapshot, away from the
    zero limit. *)
Definition percent_of_latest (s : state) (c : Container) : option Z :=
  l ← latest (stats_of (statsData s) (Id c));
  Some (Int.of_u64 (U64.mul 100 (Usage (MemoryStats l)) / Limit (MemoryStats l))).

(** ** Loops over a slice, element by element *)

(** What the loop of [containerList] does for the container [c]. *)
Definition containerList_step (s : state) (i : nat) (c : Container)
    (a : list_acc) : result list_acc :=
  do! name ← genContainerListName i c 30;
  let id' := if Z.of_nat i =? containerDetailsIndex s then Id c else detailsID a in
  match statsData s !! Id c with
  | Some stat =>
      Ok {| conts := conts a ++ [name]; detailsID := id';
            newstats := <[Id c := stat]> (newstats a); started := started a |}
  | None =>
      Ok {| conts := conts a ++ [name]; detailsID := id';
            newstats := newstats a; started := started a ++ [Id c] |}
  end.

(** The container has no name. *)
Definition nameless (c : Container) : bool :=
  match Names c with [] => true | _ => false end.

(** What the loop of [containerPercentMemory] does for the container [c]. *)
Definition containerPercentMemory_step (s : state) (i : nat) (c : Container)
    (lu : list string * list Z) : result (list string * list Z) :=
  let labels := lu.1 ++ [barLabel i] in
  let dat := stats_of (statsData s) (Id c) in
  if len dat >? 1
  then do! last ← index dat (len dat - 1);
       do! p ← memusedP (Usage (MemoryStats last)) (Limit (MemoryStats last));
       Ok (labels, lu.2 ++ [p])
  else Ok (labels, lu.2).

Fixpoint foldM_i {A St} (f : nat → A → St → result St) (i : nat) (l : list A)
    (acc : St) : result St :=
  match l with
  | [] => Ok acc
  | x :: l' => do! acc' ← f i x acc; foldM_i f (S i) l' acc'
  end.

(** ** Auxiliary notions of the proofs *)

(** A float above zero. *)
Definition positive_float (x : spec_float) : Prop :=
  match x with
  | S754_finite false _ _ | S754_infinity false => True
  | _ => False
  end.

(** The body shared by [genCPUSystemUsage] and [genNetwork]: [g i] is the
    value derived at index [i]. *)
Definition series_body {B} (g : nat → result B) : nat → list B → result (list B) :=
  λ i res, if (0 <? i)%nat then do! v ← g i; Ok (res ++ [v]) else Ok res.

(** * Properties *)

(** ** Facts on the outcome monad, slices and machine integers *)

Lemma index_lookup {A} (l : list A) (i : nat) (x : A) :
  l !! i = Some x → index l (Z.of_nat i) = Ok x.
Proof.
  intros H. unfold index.
  destruct (Z.ltb_spec (Z.of_nat i) 0); [lia|].
  by rewrite Nat2Z.id, H.
Qed.

Lemma index_lookup_pred {A} (l : list A) (i : nat) (x : A) :
  l !! i = Some x → index l (Z.of_nat (S i) - 1) = Ok x.
Proof.
  intros H. replace (Z.of_nat (S i) - 1) with (Z.of_nat i) by lia.
  by apply index_lookup.
Qed.

Lemma u64_sub_le (x y : Z) :
  U64.wf x → U64.wf y → y ≤ x → U64.sub x y = x - y.
Proof.
  unfold U64.wf, U64.sub, U64.wrap. intros Hx Hy Hle.
  apply Z.mod_small. lia.
Qed.

Lemma u64_sub_diag (x : Z) : U64.sub x x = 0.
Proof. unfold U64.sub, U64.wrap. by rewrite Z.sub_diag. Qed.

Lemma int_of_u64_sub (x y : Z) :
  U64.wf x → U64.wf y → Int.wf (x - y) →
  Int.of_u64 (U64.sub x y) = x - y.
Proof.
  unfold U64.wf, U64.modulus, Int.wf, Int.min_int, Int.max_int.
  intros Hx Hy Hr. unfold Int.of_u64, U64.sub, U64.wrap, U64.modulus.
  destruct (Z_lt_le_dec (x - y) 0) as [Hneg|Hpos].
  - replace ((x - y) mod 2 ^ 64) with (x - y + 2 ^ 64).
    + destruct (Z.ltb_spec (x - y + 2 ^ 64) (2 ^ 63)); lia.
    + apply Z.mod_unique with (-1); lia.
  - rewrite Z.mod_small by lia.
    destruct (Z.ltb_spec (x - y) (2 ^ 63)); lia.
Qed.

(** ** Facts on binary64: an integer above zero converts to a float above
    zero *)

Lemma shr_1_m r : 0 ≤ shr_m r → shr_m (shr_1 r) = shr_m r / 2.
Proof.
  destruct r as [m b c]; simpl. intros Hm.
  destruct m as [|[p|p|]|p]; cbn [shr_m shr_1]; try lia; try done.
  - apply Z.div_unique with 1; lia.
  - apply Z.div_unique with 0; lia.
Qed.

Lemma pow2_xO p : 2 ^ Z.pos p~0 = 2 ^ Z.pos p * 2 ^ Z.pos p.
Proof. rewrite <- Z.pow_add_r by lia. f_equal. lia. Qed.

Lemma pow2_xI p : 2 ^ Z.pos p~1 = 2 * (2 ^ Z.pos p * 2 ^ Z.pos p).
Proof.
  rewrite <- Z.pow_add_r, <- Z.pow_succ_r by lia. f_equal. lia.
Qed.

Lemma iter_pos_shr_1 p : ∀ r,
  0 ≤ shr_m r → shr_m (SpecFloat.iter_pos shr_1 p r) = shr_m r / 2 ^ Z.pos p.
Proof.
  assert (Hnn : ∀ q r, 0 ≤ shr_m r → 0 ≤ shr_m r / 2 ^ Z.pos q)
    by (intros; apply Z.div_pos; lia).
  induction p as [p IH|p IH|]; intros r Hr; simpl.
  - assert (H1 : 0 ≤ shr_m (shr_1 r))
      by (rewrite shr_1_m by done; apply Z.div_pos; lia).
    rewrite IH by (rewrite IH by done; auto).
    rewrite IH, shr_1_m by done.
    rewrite !Z.div_div by lia. f_equal. rewrite pow2_xI. lia.
  - rewrite IH by (rewrite IH by done; auto).
    rewrite IH by done. rewrite Z.div_div by lia. f_equal.
    rewrite pow2_xO. lia.
  - rewrite shr_1_m by done. reflexivity.
Qed.

Lemma digits2_pos_lower m : 2 ^ (Z.pos (digits2_pos m) - 1) ≤ Z.pos m.
Proof.
  induction m as [m IH|m IH|]; cbn [digits2_pos]; [| |done].
  - rewrite Pos2Z.inj_succ.
    replace (Z.succ (Z.pos (digits2_pos m)) - 1) with (Z.succ (Z.pos (digits2_pos m) - 1)) by lia.
    rewrite Z.pow_succ_r by lia. lia.
  - rewrite Pos2Z.inj_succ.
    replace (Z.succ (Z.pos (digits2_pos m)) - 1) with (Z.succ (Z.pos (digits2_pos m) - 1)) by lia.
    rewrite Z.pow_succ_r by lia. lia.
Qed.

Lemma shr_fexp_pos m e l :
  0 < m → emin F64.prec F64.emax ≤ e →
  0 < shr_m (shr_fexp F64.prec F64.emax m e l).1 ∧
  emin F64.prec F64.emax ≤ (shr_fexp F64.prec F64.emax m e l).2.
Proof.
  intros Hm He. unfold shr_fexp, shr.
  destruct m as [|m|m]; try lia. simpl Zdigits2.
  pose proof (digits2_pos_lower m) as Hd.
  set (d := Z.pos (digits2_pos m)) in *.
  assert (Hsr : ∀ l, shr_m (shr_record_of_loc (Z.pos m) l) = Z.pos m)
    by (intros [|[]]; reflexivity).
  destruct (fexp F64.prec F64.emax (d + e) - e) as [|n|n] eqn:Hn; simpl; rewrite ?Hsr; try (split; lia).
  rewrite iter_pos_shr_1 by (rewrite Hsr; lia). rewrite Hsr.
  assert (Hnd : Z.pos n ≤ d - 1).
  { assert (0 < d) by (unfold d; lia).
    unfold fexp, emin, F64.prec, F64.emax in *. lia. }
  split; [|lia].
  apply Z.div_str_pos. split; [lia|].
  transitivity (2 ^ (d - 1)); [|done].
  apply Z.pow_le_mono_r; lia.
Qed.

Lemma binary_round_aux_pos m e l :
  0 < m → emin F64.prec F64.emax ≤ e →
  positive_float (binary_round_aux F64.prec F64.emax false m e l).
Proof.
  intros Hm He. unfold binary_round_aux.
  pose proof (shr_fexp_pos m e l Hm He) as [H1 H1e].
  destruct (shr_fexp F64.prec F64.emax m e l) as [r1 e1]; simpl in H1, H1e.
  set (m1 := round_nearest_even _ _).
  assert (Hm1 : 0 < m1).
  { unfold m1, round_nearest_even.
    destruct (loc_of_shr_record r1) as [|[]]; try lia.
    destruct (Z.even (shr_m r1)); lia. }
  pose proof (shr_fexp_pos m1 e1 loc_Exact Hm1 H1e) as [H2 _].
  destruct (shr_fexp F64.prec F64.emax m1 e1 loc_Exact) as [r2 e2]; simpl in H2.
  destruct (shr_m r2); try lia.
  destruct (_ <=? _); exact I.
Qed.

Lemma of_Z_pos d : 0 < d → positive_float (F64.of_Z d).
Proof.
  intros Hd. destruct d as [|d|d]; try lia.
  unfold F64.of_Z, binary_normalize, binary_round.
  destruct (shl_align _ _ _) as [mz ez] eqn:Hsh.
  apply binary_round_aux_pos; [lia|].
  unfold shl_align in Hsh.
  destruct (fexp F64.prec F64.emax (Z.pos (digits2_pos d) + 0) - 0) eqn:Hf;
    inversion Hsh; subst; unfold emin, fexp, F64.prec, F64.emax in *; lia.
Qed.

Lemma positive_float_gt x : positive_float x → F64.gt x F64.zero = true.
Proof. destruct x as [[]|[]| |[] ? ?]; simpl; try done. Qed.

(** ** The series loops *)

Lemma for_range_from_ext {St} (b1 b2 : nat → St → result St) (n i : nat) (acc : St) :
  (∀ j a, b1 j a = b2 j a) →
  for_range_from i n b1 acc = for_range_from i n b2 acc.
Proof.
  intros Hb. revert i acc. induction n as [|n IH]; intros i acc; simpl; [done|].
  rewrite Hb. destruct (b2 i acc); simpl; [apply IH|done].
Qed.

Section series.
Context {A B : Type} (stats : list A) (f : A → A → B) (g : nat → result B).

Hypothesis g_adjacent : ∀ i prev cur,
  stats !! i = Some prev → stats !! S i = Some cur → g (S i) = Ok (f cur prev).

Lemma for_range_from_adjacent (n j : nat) (acc : list B) :
  (S j + n)%nat = length stats →
  for_range_from (S j) n (series_body g) acc
  = Ok (acc ++ zip_with (λ prev cur, f cur prev) (drop j stats) (drop (S j) stats)).
Proof.
  revert j acc. induction n as [|n IH]; intros j acc Hlen; simpl.
  - rewrite (drop_ge stats (S j)) by lia.
    by rewrite zip_with_nil_r, app_nil_r.
  - destruct (lookup_lt_is_Some_2 stats j) as [prev Hprev]; [lia|].
    destruct (lookup_lt_is_Some_2 stats (S j)) as [cur Hcur]; [lia|].
    unfold series_body at 1. simpl. rewrite (g_adjacent j prev cur) by done. simpl.
    rewrite IH by lia.
    rewrite (drop_S stats prev j), (drop_S stats cur (S j)) by done.
    simpl. by rewrite <- app_assoc.
Qed.

Lemma for_range_adjacent :
  for_range (length stats) (series_body g) []
  = Ok (adjacent (λ prev cur, f cur prev) stats).
Proof.
  unfold for_range, adjacent. destruct (length stats) as [|n] eqn:Hn.
  - by rewrite (nil_length_inv _ Hn).
  - simpl. rewrite for_range_from_adjacent by lia. by rewrite drop_0.
Qed.
End series.

Lemma adjacent_length {A B} (f : A → A → B) (l : list A) :
  length (adjacent f l) = (length l - 1)%nat.
Proof. unfold adjacent. rewrite length_zip_with, length_drop. lia. Qed.

Lemma adjacent_lookup {A B} (f : A → A → B) (l : list A) (i : nat) :
  adjacent f l !! i
  = match l !! i, l !! S i with
    | Some prev, Some cur => Some (f prev cur)
    | _, _ => None
    end.
Proof.
  unfold adjacent. rewrite lookup_zip_with, lookup_drop. simpl.
  destruct (l !! i); simpl; [|done]. by destruct (l !! S i).
Qed.

Lemma genCPUSystemUsage_adjacent (stats : list Stats) :
  genCPUSystemUsage stats
  = Ok (adjacent (λ prev cur, cpuPercent_of cur prev) stats).
Proof.
  unfold genCPUSystemUsage.
  apply (for_range_adjacent stats cpuPercent_of
           (λ i, cpuPercent stats (Z.of_nat i))).
  intros i prev cur Hprev Hcur. unfold cpuPercent.
  by rewrite (index_lookup _ _ _ Hcur), (index_lookup_pred _ _ _ Hprev).
Qed.

Lemma genNetwork_adjacent (stats : list Stats) (differ : networkDiffer) :
  genNetwork stats differ
  = Ok (adjacent (λ prev cur, differ (NetworkStats cur) (NetworkStats prev)) stats).
Proof.
  unfold genNetwork.
  etrans; [|apply (for_range_adjacent stats
           (λ cur prev, differ (NetworkStats cur) (NetworkStats prev))
           (λ i, do! stat1 ← index stats (Z.of_nat i);
                 do! stat2 ← index stats (Z.of_nat i - 1);
                 Ok (differ (NetworkStats stat1) (NetworkStats stat2))))].
  - apply for_range_from_ext. intros j a. unfold series_body.
    destruct (0 <? j)%nat; [|done].
    destruct (index stats (Z.of_nat j)); simpl; [|done].
    by destruct (index stats (Z.of_nat j - 1)).
  - intros i prev cur Hprev Hcur.
    by rewrite (index_lookup _ _ _ Hcur), (index_lookup_pred _ _ _ Hprev).
Qed.

(** ** Series generation *)

(** C7: for a buffer of N snapshots the CPU series and the network series
    (for either direction, that is for every differ) have N-1 values, the
    i-th one derived from the snapshots i and i+1; neither loop panics, and
    a buffer of no or one snapshot gives the empty series. *)
Theorem series_one_value_per_adjacent_pair
    (stats : list Stats) (differ : networkDiffer) :
  ∃ cpu net,
    genCPUSystemUsage stats = Ok cpu ∧
    genNetwork stats differ = Ok net ∧
    length cpu = (length stats - 1)%nat ∧
    length net = (length stats - 1)%nat ∧
    (∀ i, cpu !! i = match stats !! i, stats !! S i with
                     | Some prev, Some cur => Some (cpuPercent_of cur prev)
                     | _, _ => None
                     end) ∧
    (∀ i, net !! i = match stats !! i, stats !! S i with
                     | Some prev, Some cur =>
                         Some (differ (NetworkStats cur) (NetworkStats prev))
                     | _, _ => None
                     end) ∧
    (if (length stats <=? 1)%nat then cpu = [] ∧ net = [] else True).
Proof.
  eexists _, _.
  split; [apply genCPUSystemUsage_adjacent|].
  split; [apply genNetwork_adjacent|].
  split; [apply adjacent_length|].
  split; [apply adjacent_length|].
  split; [intros i; apply adjacent_lookup|].
  split; [intros i; apply adjacent_lookup|].
  destruct stats as [|x [|y l]]; done.
Qed.

(** ** Network delta *)

Lemma genNetwork_pair (prev cur : Stats) (differ : networkDiffer) :
  genNetwork [prev; cur] differ
  = Ok [differ (NetworkStats cur) (NetworkStats prev)].
Proof. reflexivity. Qed.

(** C6, as stated, fails: from rx = 0 to rx = 2^63 the difference is 2^63,
    and [rxDiffer] gives -2^63. *)
Lemma network_delta_wraps_out_of_int_range :
  stats_wf (net_snapshot 1 0 0) ∧ stats_wf (net_snapshot 2 (2 ^ 63) 0) ∧
  RxBytes (NetworkStats (net_snapshot 2 (2 ^ 63) 0))
    - RxBytes (NetworkStats (net_snapshot 1 0 0)) = 2 ^ 63 ∧
  genNetwork [net_snapshot 1 0 0; net_snapshot 2 (2 ^ 63) 0] rxDiffer
    = Ok [- 2 ^ 63].
Proof. repeat split; try done; vm_compute; congruence. Qed.

(** C6, amended: for a pair of snapshots and either direction, when the
    difference of the two byte counters fits Go's [int] the network delta
    is that difference, negative when the counter went down, with no
    clamping. *)
Theorem network_delta_signed_difference (prev cur : Stats) :
  stats_wf prev → stats_wf cur →
  (Int.wf (RxBytes (NetworkStats cur) - RxBytes (NetworkStats prev)) →
   genNetwork [prev; cur] rxDiffer
   = Ok [RxBytes (NetworkStats cur) - RxBytes (NetworkStats prev)]) ∧
  (Int.wf (TxBytes (NetworkStats cur) - TxBytes (NetworkStats prev)) →
   genNetwork [prev; cur] txDiffer
   = Ok [TxBytes (NetworkStats cur) - TxBytes (NetworkStats prev)]).
Proof.
  intros (_ & _ & _ & _ & Hrp & Htp) (_ & _ & _ & _ & Hrc & Htc).
  split; intros Hr; rewrite genNetwork_pair; unfold rxDiffer, txDiffer;
    by rewrite int_of_u64_sub.
Qed.

(** The counter reset of the specification: rx from 1000 down to 900 gives
    -100. *)
Lemma network_delta_signed_difference_witness :
  genNetwork [net_snapshot 1 1000 0; net_snapshot 2 900 0] rxDiffer
  = Ok [-100].
Proof.
  apply (network_delta_signed_difference
           (net_snapshot 1 1000 0) (net_snapshot 2 900 0));
    vm_compute; intuition congruence.
Defined.

(** ** CPU percent *)

Lemma cpuPercent_adjacent (stats : list Stats) (i : nat) (prev cur : Stats) :
  stats !! i = Some prev → stats !! S i = Some cur →
  cpuPercent stats (Z.of_nat (S i)) = Ok (cpuPercent_of cur prev).
Proof.
  intros Hprev Hcur. unfold cpuPercent.
  by rewrite (index_lookup _ _ _ Hcur), (index_lookup_pred _ _ _ Hprev).
Qed.

(** A counter that did not move between two snapshots gives 0. *)
Lemma cpuPercent_stalled (stats : list Stats) (i : nat) (prev cur : Stats) :
  stats !! i = Some prev → stats !! S i = Some cur →
  TotalUsage (CpuUsage (CpuStats cur)) = TotalUsage (CpuUsage (CpuStats prev))
  ∨ SystemUsage (CpuStats cur) = SystemUsage (CpuStats prev) →
  cpuPercent stats (Z.of_nat (S i)) = Ok 0.
Proof.
  intros Hprev Hcur Heq. rewrite (cpuPercent_adjacent _ _ _ _ Hprev Hcur).
  f_equal. unfold cpuPercent_of.
  destruct Heq as [-> | ->]; rewrite u64_sub_diag.
  - by rewrite andb_false_r.
  - done.
Qed.

(** The edge case of the specification: cpuDelta = 0. *)
Example cpuPercent_stalled_example :
  cpuPercent [cpu_snapshot 1 100 1000 1; cpu_snapshot 2 100 1100 1] 1 = Ok 0.
Proof. reflexivity. Qed.

(** C2: the total-usage counter went back from 200 to 100 while the system
    counter advanced by 1000.  The subtraction is on [uint64], so cpudelta
    is 2^64 - 100, the guard [cpudelta > 0.0] holds and the percent is a
    huge number, not 0. *)
Theorem cpu_percent_counter_reset_not_zero :
  cpuPercent [cpu_snapshot 1 200 1000 1; cpu_snapshot 2 100 2000 1] 1
  = Ok 1844674407370955264.
Proof. vm_compute. reflexivity. Qed.

(** C3, as stated, fails: with cpuDelta = 29, sysDelta = 100 and one cpu the
    exact value of the formula is 29, and [cpuPercent] gives 28, because
    29/100 is rounded to a float below 0.29 before it is multiplied. *)
Lemma cpu_percent_below_exact_value :
  cpuPercent [cpu_snapshot 1 0 0 1; cpu_snapshot 2 29 100 1] 1 = Ok 28 ∧
  cpu_percent_exact (29 - 0) (100 - 0) 1 = 29.
Proof. split; vm_compute; reflexivity. Qed.

(** C3, amended: for an adjacent pair whose two deltas are above zero the
    CPU percent is [(cpuDelta / sysDelta) * onlineCpuCount * 100] evaluated
    in binary64, every operation rounded to nearest, then truncated toward
    zero, as long as the truncated value [v] is in the range of [int]. *)
Theorem cpu_percent_positive_deltas
    (stats : list Stats) (i : nat) (prev cur : Stats) (v : Z) :
  stats !! i = Some prev → stats !! S i = Some cur →
  stats_wf prev → stats_wf cur →
  TotalUsage (CpuUsage (CpuStats prev)) < TotalUsage (CpuUsage (CpuStats cur)) →
  SystemUsage (CpuStats prev) < SystemUsage (CpuStats cur) →
  F64.trunc
    (cpu_percent_binary64
       (TotalUsage (CpuUsage (CpuStats cur))
          - TotalUsage (CpuUsage (CpuStats prev)))
       (SystemUsage (CpuStats cur) - SystemUsage (CpuStats prev))
       (len (PercpuUsage (CpuUsage (CpuStats cur))))) = Some v →
  Int.wf v →
  cpuPercent stats (Z.of_nat (S i)) = Ok v.
Proof.
  intros Hprev Hcur (Htp & Hsp & _) (Htc & Hsc & _) Ht Hs Hv [Hmin Hmax].
  rewrite (cpuPercent_adjacent _ _ _ _ Hprev Hcur). f_equal.
  unfold cpuPercent_of, cpu_percent_binary64 in *.
  rewrite !u64_sub_le by (done || lia).
  rewrite !positive_float_gt by (apply of_Z_pos; lia).
  cbn [andb]. unfold F64.to_int. rewrite Hv.
  apply Z.leb_le in Hmin, Hmax. by rewrite Hmin, Hmax.
Qed.

(** The computation of the specification: cpuDelta = 50, sysDelta = 200 and
    two cpus give 50. *)
Lemma cpu_percent_positive_deltas_witness :
  cpuPercent [cpu_snapshot 1 100 1000 2; cpu_snapshot 2 150 1200 2] 1 = Ok 50.
Proof.
  apply (cpu_percent_positive_deltas
           [cpu_snapshot 1 100 1000 2; cpu_snapshot 2 150 1200 2] 0
           (cpu_snapshot 1 100 1000 2) (cpu_snapshot 2 150 1200 2) 50);
    vm_compute; intuition congruence.
Defined.

(** Why the range is asked for: with cpuDelta = 2^63, sysDelta = 1 and one
    cpu the float is 100 * 2^63, which no [int] holds; the conversion of
    amd64 then gives the smallest [int]. *)
Example cpu_percent_out_of_int_range :
  F64.trunc (cpu_percent_binary64 (2 ^ 63 - 0) (1 - 0) 1) = Some (100 * 2 ^ 63) ∧
  cpuPercent [cpu_snapshot 1 0 0 1; cpu_snapshot 2 (2 ^ 63) 1 1] 1
  = Ok Int.min_int.
Proof. split; vm_compute; reflexivity. Qed.

(** ** Memory percent *)

Lemma memusedP_zero_limit (memused : Z) : memusedP memused 0 = Panic DivideByZero.
Proof. reflexivity. Qed.

(** Away from the zero limit, from the overflow of [100 * memused] and from
    a quotient above the largest [int]. *)
Lemma memusedP_in_range (memused memlim : Z) :
  0 ≤ memused → 100 * memused < U64.modulus → 0 < memlim →
  memused * 100 / memlim ≤ Int.max_int →
  memusedP memused memlim = Ok (memused * 100 / memlim).
Proof.
  intros Hu Hm Hl Hmax. unfold memusedP, U64.div, U64.mul, U64.wrap.
  destruct (Z.eqb_spec memlim 0); [lia|]. simpl. f_equal.
  rewrite Z.mod_small by lia. rewrite (Z.mul_comm 100).
  assert (Hq : 0 ≤ memused * 100 / memlim < 2 ^ 63).
  { split; [apply Z.div_pos; lia|]. unfold Int.max_int in Hmax. lia. }
  unfold Int.of_u64. destruct (Z.ltb_spec (memused * 100 / memlim) (2 ^ 63)); lia.
Qed.

Example memusedP_half : memusedP 512 1024 = Ok 50.
Proof. reflexivity. Qed.

Example memusedP_none : memusedP 0 1024 = Ok 0.
Proof. reflexivity. Qed.

(** C1: the latest of two snapshots of container A reports usage 512 and
    limit 0.  The division of [containerPercentMemory] panics; the drawer
    reports no error value and nothing recovers from the panic. *)
Theorem memory_percent_zero_limit_panics :
  containerPercentMemory
    (state_of [container_A] 0 ""
       {[ "A" := [mem_snapshot 1 512 0; mem_snapshot 2 512 0] ]} 80)
  = Panic DivideByZero.
Proof. vm_compute. reflexivity. Qed.

(** ** The history of a container *)

Lemma Time_eqb_eq (a b : Time.t) : Time.eqb a b = true ↔ a = b.
Proof.
  unfold Time.eqb. rewrite !andb_true_iff, !Z.eqb_eq. split.
  - destruct a, b. simpl. by intros [[-> ->] ->].
  - by intros ->.
Qed.

Lemma same_read_true (dat : list Stats) (l stats : Stats) :
  last dat = Some l → Read l = Read stats → same_read dat stats = true.
Proof. unfold same_read. intros -> ->. by apply Time_eqb_eq. Qed.

Lemma same_read_false (dat : list Stats) (stats : Stats) :
  match last dat with Some p => Read p ≠ Read stats | None => True end →
  same_read dat stats = false.
Proof.
  unfold same_read. destruct (last dat); [|done].
  intros H. apply not_true_is_false. by rewrite Time_eqb_eq.
Qed.

(** A snapshot with the timestamp of the last stored one leaves the state
    as it is, unless the trim empties the history first. *)
Lemma dockerStats_same_read (s : state) (id : string) (dat : list Stats)
    (l stats : Stats) :
  statsData s !! id = Some dat → last dat = Some l → Read l = Read stats →
  1 ≤ capacity s ∨ 2 ≤ len dat →
  dockerStats id stats s = Ok s.
Proof.
  intros Hdat Hlast Hread Hroom. unfold dockerStats, stats_of. rewrite Hdat.
  simpl. unfold capacity, len in *.
  destruct (Z.gtb_spec (Z.of_nat (length dat)) (bodyWidth s - 2)) as [Hfull|Hfit].
  - destruct dat as [|x [|y dat']]; simpl in *; try lia.
    unfold slice_from. simpl.
    by rewrite (same_read_true (y :: dat') l stats).
  - simpl. by rewrite (same_read_true dat l stats).
Qed.

Lemma take_last_app {A} (n : nat) (a b : list A) :
  take_last n (take_last n a ++ b) = take_last n (a ++ b).
Proof.
  unfold take_last. rewrite !length_app, length_drop.
  destruct (decide (length a ≤ n)%nat) as [Hle|Hgt].
  - replace (length a - n)%nat with 0%nat by lia. by rewrite drop_0, Nat.sub_0_r.
  - replace (length a - (length a - n) + length b - n)%nat
      with (length b) by lia.
    replace (length a + length b - n)%nat
      with ((length a - n) + length b)%nat by lia.
    rewrite <- drop_drop, (drop_app a b).
    replace (length a - n - length a)%nat with 0%nat by lia.
    reflexivity.
Qed.

Lemma stats_of_insert (m : gmap string (list Stats)) (id : string) (h : list Stats) :
  stats_of (<[id := h]> m) id = h.
Proof. unfold stats_of. by rewrite lookup_insert_eq. Qed.

Lemma take_last_all {A} (n : nat) (l : list A) :
  (length l ≤ n)%nat → take_last n l = l.
Proof.
  intros H. unfold take_last.
  by replace (length l - n)%nat with 0%nat by lia.
Qed.

Lemma take_last_snoc_last {A} (n : nat) (l : list A) (x : A) :
  (1 ≤ n)%nat → last (take_last n (l ++ [x])) = Some x.
Proof.
  intros Hn. unfold take_last. rewrite length_app. simpl.
  rewrite drop_app_le by lia. apply last_snoc.
Qed.

(** A snapshot with a new timestamp is stored at the end, and the oldest
    one goes when the history was longer than the capacity. *)
Lemma dockerStats_fresh_read (s : state) (id : string) (h : list Stats) (x : Stats) :
  stats_of (statsData s) id = h → 0 ≤ capacity s → len h ≤ capacity s + 1 →
  match last h with Some p => Read p ≠ Read x | None => True end →
  ∃ s', dockerStats id x s = Ok s' ∧ bodyWidth s' = bodyWidth s ∧
        statsData s'
        = <[id := take_last (Z.to_nat (capacity s + 1)) (h ++ [x])]> (statsData s).
Proof.
  intros Hh Hcap Hlen Hfresh. unfold dockerStats. rewrite Hh.
  unfold capacity, len in *.
  destruct (Z.gtb_spec (Z.of_nat (length h)) (bodyWidth s - 2)) as [Hfull|Hfit].
  - destruct h as [|y h']; simpl in Hfull, Hlen; [lia|].
    unfold slice_from. simpl.
    rewrite same_read_false.
    + eexists. split; [done|]. split; [done|]. simpl.
      unfold take_last. simpl. rewrite length_app. simpl.
      replace (S (length h' + 1) - Z.to_nat (bodyWidth s - 2 + 1))%nat
        with 1%nat by lia.
      reflexivity.
    + destruct h' as [|z h'']; [done|]. by rewrite last_cons_cons in Hfresh.
  - simpl. rewrite same_read_false by done.
    eexists. split; [done|]. split; [done|]. simpl.
    rewrite take_last_all; [done|].
    rewrite length_app. simpl. lia.
Qed.

Lemma dockerStats_all_fresh_reads (l : list Stats) : ∀ (s : state) (id : string) (h : list Stats),
  stats_of (statsData s) id = h → 0 ≤ capacity s → len h ≤ capacity s + 1 →
  fresh_reads (last h) l →
  history_after id l s = Some (take_last (Z.to_nat (capacity s + 1)) (h ++ l)).
Proof.
  unfold history_after.
  induction l as [|x l IH]; intros s id h Hh Hcap Hlen Hfresh; simpl.
  - rewrite app_nil_r, take_last_all, Hh; [done|]. unfold len in Hlen. lia.
  - destruct Hfresh as [Hx Hl].
    destruct (dockerStats_fresh_read s id h x Hh Hcap Hlen Hx) as (s' & -> & Hw & Hh').
    simpl.
    assert (Hc : capacity s' = capacity s) by (unfold capacity; by rewrite Hw).
    rewrite (IH s' id (take_last (Z.to_nat (capacity s + 1)) (h ++ [x])));
      rewrite ?Hc; try done.
    + by rewrite take_last_app, <- app_assoc.
    + by rewrite Hh', stats_of_insert.
    + unfold len, take_last. rewrite length_drop. lia.
    + by rewrite take_last_snoc_last by lia.
Qed.

Lemma NoDup_fresh_reads (l : list Stats) : ∀ o,
  match o with Some p => Read p ∉ Read <$> l | None => True end →
  NoDup (Read <$> l) → fresh_reads o l.
Proof.
  induction l as [|x l IH]; intros o Ho Hnd; simpl; [done|].
  rewrite fmap_cons in Hnd. apply NoDup_cons in Hnd as [Hx Hnd].
  split.
  - destruct o as [p|]; [|done]. intros Heq. apply Ho. rewrite fmap_cons, Heq. left.
  - by apply IH.
Qed.

(** C4: two snapshots with the timestamp 7 arrive for container A, which
    has no history, on a panel two columns wide.  When the second arrives
    the history of one snapshot is longer than [Width - 2 = 0], so the trim
    empties it before the timestamps are compared; [len(dat) > 0] is false
    and the second snapshot is stored in place of the first.  The comment of
    the code at this test is "same stat twice, ignore". *)
Theorem duplicate_replaces_first_on_narrow_panel :
  Read (mem_snapshot 7 200 1024) = Read (mem_snapshot 7 100 1024) ∧
  history_after "A" [mem_snapshot 7 100 1024; mem_snapshot 7 200 1024]
    (state_of [container_A] 0 "" ∅ 2)
  = Some [mem_snapshot 7 200 1024].
Proof. split; vm_compute; reflexivity. Qed.

(** C10: container A has the history of one snapshot with the timestamp 7
    and the panel is two columns wide.  A snapshot with the same timestamp
    and other counters arrives: the trim, made before the timestamps are
    compared, empties the local slice, the snapshot is taken for a new one
    and the store is written, with the incoming snapshot where the stored
    one was. *)
Theorem duplicate_ingest_rewrites_store_on_narrow_panel :
  last [mem_snapshot 7 100 1024] = Some (mem_snapshot 7 100 1024) ∧
  Read (mem_snapshot 7 100 1024) = Read (mem_snapshot 7 200 1024) ∧
  dockerStats "A" (mem_snapshot 7 200 1024)
    (state_of [container_A] 0 "" {[ "A" := [mem_snapshot 7 100 1024] ]} 2)
  = Ok (state_of [container_A] 0 "" {[ "A" := [mem_snapshot 7 200 1024] ]} 2) ∧
  [mem_snapshot 7 200 1024] ≠ [mem_snapshot 7 100 1024].
Proof. repeat split; try (vm_compute; reflexivity). discriminate. Qed.

(** Where the code does ignore the second of two equal timestamps: the
    history holds at least two snapshots, or the panel is at least three
    columns wide.  The state is then returned as it was; the trim of a full
    history is made on the local slice and is not stored. *)
Lemma duplicate_ignored_with_room (s : state) (id : string) (dat : list Stats)
    (l stats : Stats) :
  statsData s !! id = Some dat → last dat = Some l → Read l = Read stats →
  1 ≤ capacity s ∨ 2 ≤ len dat →
  dockerStats id stats s = Ok s ∧ history_after id [stats] s = Some dat.
Proof.
  intros Hdat Hlast Hread Hroom.
  pose proof (dockerStats_same_read s id dat l stats Hdat Hlast Hread Hroom) as Hs.
  split; [done|]. unfold history_after. simpl. rewrite Hs. simpl.
  unfold stats_of. by rewrite Hdat.
Qed.

(** A full history (four snapshots, three columns) and a duplicate of its
    last snapshot. *)
Example duplicate_ignored_on_full_history :
  history_after "A" [mem_snapshot 4 200 1024]
    (state_of [container_A] 0 ""
       {[ "A" := [mem_snapshot 1 0 1024; mem_snapshot 2 0 1024;
                  mem_snapshot 3 0 1024; mem_snapshot 4 100 1024] ]} 5)
  = Some [mem_snapshot 1 0 1024; mem_snapshot 2 0 1024;
          mem_snapshot 3 0 1024; mem_snapshot 4 100 1024].
Proof.
  apply (duplicate_ignored_with_room
           (state_of [container_A] 0 ""
              {[ "A" := [mem_snapshot 1 0 1024; mem_snapshot 2 0 1024;
                         mem_snapshot 3 0 1024; mem_snapshot 4 100 1024] ]} 5)
           "A" _ (mem_snapshot 4 100 1024) (mem_snapshot 4 200 1024));
    vm_compute; (reflexivity || (left; congruence)).
Qed.

(** On a panel at least three columns wide, of two snapshots with one
    timestamp that arrive for a container without history only the first is
    stored. *)
Lemma duplicate_ignored_after_first (s : state) (id : string)
    (first second : Stats) :
  statsData s !! id = None → 1 ≤ capacity s → Read second = Read first →
  history_after id [first; second] s = Some [first].
Proof.
  intros Hnone Hcap Hread.
  assert (Hnil : stats_of (statsData s) id = []) by (unfold stats_of; by rewrite Hnone).
  destruct (dockerStats_fresh_read s id [] first Hnil) as (s' & Hs' & Hw & Hh');
    [lia|unfold len; simpl; lia|done|].
  rewrite take_last_all in Hh' by (simpl; lia). simpl in Hh'.
  unfold history_after. simpl. rewrite Hs'. simpl.
  rewrite (dockerStats_same_read s' id [first] first second); simpl; auto.
  - by rewrite Hh', stats_of_insert.
  - by rewrite Hh', lookup_insert_eq.
  - left. unfold capacity in *. by rewrite Hw.
Qed.

(** [==] on [time.Time] compares the [Location] pointers too: two
    snapshots of one instant whose timestamps point to two locations are
    both stored, on a panel of any width. *)
Example same_instant_two_locations_stored_twice :
  Time.ext (Read (in_location 824634515456 (mem_snapshot 7 200 1024)))
  = Time.ext (Read (mem_snapshot 7 100 1024)) ∧
  Time.wall (Read (in_location 824634515456 (mem_snapshot 7 200 1024)))
  = Time.wall (Read (mem_snapshot 7 100 1024)) ∧
  history_after "A"
    [mem_snapshot 7 100 1024; in_location 824634515456 (mem_snapshot 7 200 1024)]
    (state_of [container_A] 0 "" ∅ 80)
  = Some [mem_snapshot 7 100 1024;
          in_location 824634515456 (mem_snapshot 7 200 1024)].
Proof. repeat split; vm_compute; reflexivity. Qed.

(** C5, as stated, fails: on a panel five columns wide, three of them
    inside the border, six snapshots with six timestamps leave four in the
    history, neither three nor five. *)
Lemma history_holds_one_more_than_capacity :
  bodyWidth (state_of [container_A] 0 "" ∅ 5) = 5 ∧
  capacity (state_of [container_A] 0 "" ∅ 5) = 3 ∧
  history_after "A"
    [net_snapshot 1 0 0; net_snapshot 2 0 0; net_snapshot 3 0 0;
     net_snapshot 4 0 0; net_snapshot 5 0 0; net_snapshot 6 0 0]
    (state_of [container_A] 0 "" ∅ 5)
  = Some [net_snapshot 3 0 0; net_snapshot 4 0 0; net_snapshot 5 0 0;
          net_snapshot 6 0 0].
Proof. repeat split; vm_compute; reflexivity. Qed.

(** C5, amended: for a container without history and a panel at least two
    columns wide, after N > capacity snapshots with distinct timestamps
    the history holds capacity + 1 snapshots: the most recent capacity + 1
    of the N, in the order of their arrival. *)
Theorem history_keeps_most_recent (s : state) (id : string) (l : list Stats) :
  statsData s !! id = None → 0 ≤ capacity s →
  NoDup (Read <$> l) → capacity s < len l →
  history_after id l s = Some (take_last (Z.to_nat (capacity s + 1)) l) ∧
  len (take_last (Z.to_nat (capacity s + 1)) l) = capacity s + 1.
Proof.
  intros Hnone Hcap Hnd Hlen. split.
  - apply (dockerStats_all_fresh_reads l s id []); try done.
    + unfold stats_of. by rewrite Hnone.
    + unfold len. simpl. lia.
    + by apply NoDup_fresh_reads.
  - unfold len, take_last in *. rewrite length_drop. lia.
Qed.

Lemma history_keeps_most_recent_witness :
  history_after "A"
    [net_snapshot 1 0 0; net_snapshot 2 0 0; net_snapshot 3 0 0;
     net_snapshot 4 0 0; net_snapshot 5 0 0]
    (state_of [container_A] 0 "" ∅ 4)
  = Some [net_snapshot 3 0 0; net_snapshot 4 0 0; net_snapshot 5 0 0].
Proof.
  apply (history_keeps_most_recent (state_of [container_A] 0 "" ∅ 4) "A"
           [net_snapshot 1 0 0; net_snapshot 2 0 0; net_snapshot 3 0 0;
            net_snapshot 4 0 0; net_snapshot 5 0 0]).
  - reflexivity.
  - vm_compute. congruence.
  - apply (bool_decide_unpack _). vm_compute. exact I.
  - vm_compute. reflexivity.
Defined.

(** ** Refreshing the list of containers *)

Lemma genContainerListName_named (i : nat) (c : Container) (maxlen : nat) :
  (3 ≤ maxlen)%nat → Names c ≠ [] →
  ∃ name, genContainerListName i c maxlen = Ok name.
Proof.
  intros Hmax Hn. unfold genContainerListName.
  destruct (Names c) as [|n ns]; [done|].
  change (index (n :: ns) 0) with (Ok (A:=string) n).
  cbv beta iota zeta delta [rbind].
  destruct (Nat.ltb_spec maxlen 3) as [Hlt|_]; [lia|].
  match goal with |- context [if ?b then _ else _] => destruct b end; eauto.
Qed.

Lemma index_middle {A} (pre rest : list A) (c : A) :
  index (pre ++ c :: rest) (Z.of_nat (length pre)) = Ok c.
Proof. apply index_lookup. by rewrite list_lookup_middle. Qed.

Lemma containerList_loop (s : state) (rest : list Container) :
  ∀ (pre : list Container) (a : list_acc),
  Forall (λ c, Names c ≠ []) rest →
  ∃ names,
    for_range_from (length pre) (length rest)
      (containerList_body (pre ++ rest) s) a
    = Ok {| conts := conts a ++ names;
            detailsID := selected_from (length pre) rest
                           (containerDetailsIndex s) (detailsID a);
            newstats := foldl (keep (statsData s)) (newstats a) rest;
            started := started a ++ missing rest (statsData s) |}.
Proof.
  induction rest as [|c rest IH]; intros pre a Hnames; simpl.
  - exists []. rewrite !app_nil_r. by destruct a.
  - apply Forall_cons in Hnames as [Hc Hrest].
    unfold containerList_body at 1. rewrite index_middle. simpl.
    destruct (genContainerListName_named (length pre) c 30) as [name ->]; [lia|done|].
    simpl.
    replace (pre ++ c :: rest) with ((pre ++ [c]) ++ rest) by (by rewrite <- app_assoc).
    replace (S (length pre)) with (length (pre ++ [c])) by (rewrite length_app; simpl; lia).
    unfold missing, keep. rewrite fmap_cons, filter_cons.
    destruct (statsData s !! Id c) as [stat|] eqn:Hold; cbn [rbind].
    + destruct (IH (pre ++ [c])
        {| conts := conts a ++ [name];
           detailsID := if Z.of_nat (length pre) =? containerDetailsIndex s
                        then Id c else detailsID a;
           newstats := <[Id c:=stat]> (newstats a); started := started a |} Hrest)
        as [names ->].
      exists (name :: names). simpl. rewrite <- app_assoc. simpl.
      replace (length (pre ++ [c])) with (S (length pre)) by (rewrite length_app; simpl; lia).
      done.
    + destruct (IH (pre ++ [c])
        {| conts := conts a ++ [name];
           detailsID := if Z.of_nat (length pre) =? containerDetailsIndex s
                        then Id c else detailsID a;
           newstats := newstats a; started := started a ++ [Id c] |} Hrest)
        as [names ->].
      exists (name :: names). simpl. rewrite <- !app_assoc. simpl.
      replace (length (pre ++ [c])) with (S (length pre)) by (rewrite length_app; simpl; lia).
      done.
Qed.

Lemma selected_from_spec (cs : list Container) (idx : Z) : ∀ (i : nat) (id0 : string),
  selected_from i cs idx id0
  = if idx <? Z.of_nat i then id0
    else match cs !! (Z.to_nat idx - i)%nat with
         | Some c => Id c
         | None => id0
         end.
Proof.
  induction cs as [|c cs IH]; intros i id0; simpl.
  - by destruct (idx <? Z.of_nat i).
  - rewrite IH.
    destruct (Z.ltb_spec idx (Z.of_nat (S i))), (Z.ltb_spec idx (Z.of_nat i)),
      (Z.eqb_spec (Z.of_nat i) idx); try lia; try done.
    + replace (Z.to_nat idx - i)%nat with 0%nat by lia. done.
    + replace (Z.to_nat idx - i)%nat with (S (Z.to_nat idx - S i)) by lia. done.
Qed.

Lemma selected_from_0 (cs : list Container) (idx : Z) (id0 : string) :
  selected_from 0 cs idx id0 = selected cs idx id0.
Proof.
  rewrite selected_from_spec. unfold selected. simpl.
  by rewrite Nat.sub_0_r.
Qed.

Lemma reconcile_reconciled (cs : list Container) (s : state) :
  Forall (λ c, Names c ≠ []) cs → reconcile cs s = Some (reconciled cs s).
Proof.
  intros Hnames. unfold reconcile, containerList, for_range.
  destruct (containerList_loop s cs [] {| conts := []; detailsID := containerDetailsID s;
                   newstats := ∅; started := [] |} Hnames) as [names Hloop].
  simpl in Hloop. rewrite Hloop. simpl.
  by rewrite selected_from_0.
Qed.

Lemma keep_lookup (old m : gmap string (list Stats)) (c : Container) (id : string) :
  keep old m c !! id
  = if decide (id = Id c)
    then match old !! id with Some h => Some h | None => m !! id end
    else m !! id.
Proof.
  unfold keep. case_decide as Heq.
  - subst id. destruct (old !! Id c); [|done]. by rewrite lookup_insert_eq.
  - destruct (old !! Id c); [|done]. by rewrite lookup_insert_ne.
Qed.

Lemma keep_fold_lookup (old : gmap string (list Stats)) (cs : list Container) :
  ∀ (m : gmap string (list Stats)) (id : string),
  foldl (keep old) m cs !! id
  = if decide (id ∈ Id <$> cs)
    then match old !! id with Some h => Some h | None => m !! id end
    else m !! id.
Proof.
  induction cs as [|c cs IH]; intros m id; [done|].
  cbn [foldl]. rewrite IH, keep_lookup, fmap_cons.
  destruct (decide (id = Id c)) as [->|Hne].
  - rewrite (decide_True (P := Id c ∈ Id c :: (Id <$> cs))) by left.
    case_decide; by destruct (old !! Id c).
  - destruct (decide (id ∈ Id <$> cs)) as [Hin|Hnin].
    + by rewrite decide_True by (by right).
    + rewrite decide_False; [done|].
      intros [?|?]%elem_of_cons; done.
Qed.

Lemma kept_lookup (cs : list Container) (old : gmap string (list Stats)) (id : string) :
  kept cs old !! id = if decide (id ∈ Id <$> cs) then old !! id else None.
Proof.
  unfold kept. rewrite keep_fold_lookup, lookup_empty.
  case_decide; [|done]. by destruct (old !! id).
Qed.

Lemma kept_kept (cs : list Container) (old : gmap string (list Stats)) :
  kept cs (kept cs old) = kept cs old.
Proof.
  apply map_eq. intros id. rewrite !kept_lookup. by case_decide.
Qed.

Lemma filter_none_agree (m1 m2 : gmap string (list Stats)) (l : list string) :
  (∀ id, id ∈ l → m1 !! id = m2 !! id) →
  filter (λ id, m1 !! id = None) l = filter (λ id, m2 !! id = None) l.
Proof.
  induction l as [|x l IH]; intros Hag; [done|].
  rewrite !filter_cons, IH by (intros; apply Hag; by right).
  rewrite (Hag x) by left. done.
Qed.

Lemma missing_kept (cs : list Container) (old : gmap string (list Stats)) :
  missing cs (kept cs old) = missing cs old.
Proof.
  unfold missing. apply filter_none_agree.
  intros id Hin. rewrite kept_lookup. by rewrite decide_True.
Qed.

Lemma selected_selected (cs : list Container) (idx : Z) (id0 : string) :
  selected cs idx (selected cs idx id0) = selected cs idx id0.
Proof.
  unfold selected. destruct (idx <? 0); [done|].
  by destruct (cs !! Z.to_nat idx).
Qed.

(** When every listed container has a history, a refresh of the same list
    changes nothing. *)
Lemma reconciled_all_tracked (cs : list Container) (s : state) :
  missing cs (statsData s) = [] →
  reconciled cs (reconciled cs s) = reconciled cs s.
Proof.
  intros Hm. unfold reconciled at 1. simpl.
  rewrite kept_kept, missing_kept, Hm, app_nil_r. unfold reconciled.
  destruct (len cs =? 0); [done|]. by rewrite selected_selected, Hm, app_nil_r.
Qed.

(** C8, as stated, fails: A and B are listed and no snapshot has arrived
    yet.  After two refreshes there is still no history for A, and the
    second refresh was not a no-op: it started a second monitor for each of
    the two containers. *)
Lemma second_refresh_starts_monitors_again :
  monitors <$> reconcile [container_A; container_B] (state_of [] 0 "" ∅ 80)
    = Some ["A"; "B"] ∧
  monitors <$> (reconcile [container_A; container_B] (state_of [] 0 "" ∅ 80)
                  ≫= reconcile [container_A; container_B])
    = Some ["A"; "B"; "A"; "B"] ∧
  (λ s, statsData s !! "A")
    <$> (reconcile [container_A; container_B] (state_of [] 0 "" ∅ 80)
           ≫= reconcile [container_A; container_B])
    = Some None.
Proof. repeat split; vm_compute; reflexivity. Qed.

(** C8, amended: two refreshes in a row with the same list of containers
    (each carrying a name) leave the histories as the first refresh left
    them: those of the listed containers that had one, with their contents
    unchanged, and no other; the list, the selection, the index and the
    width are unchanged too.  When every listed container has a history the
    second refresh changes nothing at all. *)
Theorem reconcile_twice (cs : list Container) (s : state) :
  Forall (λ c, Names c ≠ []) cs →
  ∃ s1 s2,
    reconcile cs s = Some s1 ∧ reconcile cs s1 = Some s2 ∧
    statsData s2 = statsData s1 ∧
    (∀ id, statsData s2 !! id
           = if decide (id ∈ Id <$> cs) then statsData s !! id else None) ∧
    allcontainers s2 = allcontainers s1 ∧
    containerDetailsID s2 = containerDetailsID s1 ∧
    containerDetailsIndex s2 = containerDetailsIndex s1 ∧
    bodyWidth s2 = bodyWidth s1 ∧
    (missing cs (statsData s) = [] → s2 = s1).
Proof.
  intros Hnames. exists (reconciled cs s), (reconciled cs (reconciled cs s)).
  split; [by apply reconcile_reconciled|].
  split; [by apply reconcile_reconciled|].
  split; [apply kept_kept|].
  split; [intros id; simpl; rewrite kept_kept; apply kept_lookup|].
  split; [done|].
  split; [|split; [done|split; [done|apply reconciled_all_tracked]]].
  simpl. destruct (len cs =? 0); [done|apply selected_selected].
Qed.

(** A is tracked with one snapshot, B is listed for the first time. *)
Lemma reconcile_twice_witness :
  ∃ s1 s2,
    reconcile [container_A; container_B]
      (state_of [container_A] 0 "A" {[ "A" := [net_snapshot 1 0 0] ]} 80) = Some s1 ∧
    reconcile [container_A; container_B] s1 = Some s2 ∧
    statsData s2 = statsData s1 ∧
    statsData s2 !! "A" = Some [net_snapshot 1 0 0] ∧
    statsData s2 !! "B" = None ∧
    containerDetailsID s2 = containerDetailsID s1.
Proof.
  destruct (reconcile_twice [container_A; container_B]
              (state_of [container_A] 0 "A" {[ "A" := [net_snapshot 1 0 0] ]} 80))
    as (s1 & s2 & H1 & H2 & Hs & Hl & _ & Hid & _).
  - repeat constructor; discriminate.
  - exists s1, s2. repeat split; try done; by rewrite Hl.
Defined.

(** ** The container selected for the details *)

(** An index within the list selects the container at that position. *)
Lemma reconcile_selects_listed (cs : list Container) (s : state) (c : Container) :
  Forall (λ c, Names c ≠ []) cs →
  0 ≤ containerDetailsIndex s →
  cs !! Z.to_nat (containerDetailsIndex s) = Some c →
  containerDetailsID <$> reconcile cs s = Some (Id c).
Proof.
  intros Hnames Hidx Hc. rewrite reconcile_reconciled by done. simpl.
  unfold selected. rewrite Hc.
  destruct (Z.ltb_spec (containerDetailsIndex s) 0); [lia|].
  destruct cs; [done|]. done.
Qed.

(** An index beyond a list that is not empty leaves the selection as it
    was. *)
Lemma reconcile_keeps_selection (cs : list Container) (s : state) :
  Forall (λ c, Names c ≠ []) cs → cs ≠ [] →
  cs !! Z.to_nat (containerDetailsIndex s) = None →
  containerDetailsID <$> reconcile cs s = Some (containerDetailsID s).
Proof.
  intros Hnames Hne Hc. rewrite reconcile_reconciled by done. simpl.
  unfold selected. rewrite Hc.
  destruct cs; [done|]. simpl. by destruct (containerDetailsIndex s <? 0).
Qed.

(** C9: A and B are listed and the index is 0, so A is selected.  The
    operator then types 5, where the list has no container.  After the next
    refresh the selection is still A and the details panel shows A: the
    selection is cleared only when the list is empty or cannot be read. *)
Theorem stale_index_keeps_previous_container :
  [container_A; container_B] !! 5%nat = None ∧
  (λ s, (containerDetailsIndex s, containerDetailsID s,
         containerDetails (λ _, true) s DetailsEmpty))
    <$> (reconcile [container_A; container_B] (state_of [] 0 "" ∅ 80)
           ≫= λ s1, reconcile [container_A; container_B] (select_index 5 s1))
  = Some (5, "A", DetailsOf "A").
Proof. split; vm_compute; reflexivity. Qed.

(** ** Loops over a slice, element by element *)

Lemma for_range_from_foldM {A St} (f : nat → A → St → result St) (rest : list A) :
  ∀ (pre : list A) (acc : St),
  for_range_from (length pre) (length rest)
    (λ i acc, do! c ← index (pre ++ rest) (Z.of_nat i); f i c acc) acc
  = foldM_i f (length pre) rest acc.
Proof.
  induction rest as [|c rest IH]; intros pre acc; simpl; [done|].
  rewrite index_middle. simpl. destruct (f (length pre) c acc) as [acc'|]; simpl; [|done].
  specialize (IH (pre ++ [c]) acc').
  rewrite <- app_assoc, length_app in IH. simpl in IH.
  by rewrite Nat.add_1_r in IH.
Qed.

Lemma for_range_foldM {A St} (f : nat → A → St → result St) (l : list A) (acc : St) :
  for_range (length l) (λ i acc, do! c ← index l (Z.of_nat i); f i c acc) acc
  = foldM_i f 0 l acc.
Proof. apply (for_range_from_foldM f l []). Qed.

(** ** The drawers of the main panel *)

Lemma index_latest (dat : list Stats) :
  (len dat >? 1) = true →
  ∃ l, latest dat = Some l ∧ last dat = Some l ∧ index dat (len dat - 1) = Ok l.
Proof.
  unfold latest, len. intros H%Z.gtb_lt.
  destruct (lookup_lt_is_Some_2 dat (pred (length dat))) as [l Hl]; [lia|].
  exists l. rewrite last_lookup.
  destruct (Z.ltb_spec 1 (Z.of_nat (length dat))); [|lia].
  split; [done|]. split; [done|].
  replace (Z.of_nat (length dat) - 1) with (Z.of_nat (pred (length dat))) by lia.
  by apply index_lookup.
Qed.

Lemma latest_short (dat : list Stats) : (len dat >? 1) = false → latest dat = None.
Proof.
  unfold latest. intros H. destruct (Z.ltb_spec 1 (len dat)) as [Hlt|]; [|done].
  apply Z.gtb_lt in Hlt. congruence.
Qed.

Lemma cpuPercent_last (dat : list Stats) :
  (len dat >? 1) = true →
  cpuPercent dat (len dat - 1) = Ok (default 0 (last (cpu_series dat))).
Proof.
  unfold len. intros H%Z.gtb_lt.
  destruct (lookup_lt_is_Some_2 dat (length dat - 2)) as [prev Hprev]; [lia|].
  destruct (lookup_lt_is_Some_2 dat (S (length dat - 2))) as [cur Hcur]; [lia|].
  replace (Z.of_nat (length dat) - 1) with (Z.of_nat (S (length dat - 2))) by lia.
  rewrite (cpuPercent_adjacent _ _ _ _ Hprev Hcur).
  unfold cpu_series. rewrite last_lookup, adjacent_length, adjacent_lookup.
  replace (pred (length dat - 1)) with (length dat - 2)%nat by lia.
  by rewrite Hprev, Hcur.
Qed.

Lemma cpu_series_short (dat : list Stats) :
  (len dat >? 1) = false → cpu_series dat = [].
Proof.
  unfold len. intros H. destruct (Z.gtb_spec (Z.of_nat (length dat)) 1); [done|].
  apply nil_length_inv. unfold cpu_series. rewrite adjacent_length. lia.
Qed.

Lemma containerCPU_step_line (s : state) (c : Container) (cpus : Sparklines.t) :
  containerCPU_step s c cpus
  = Ok {| Sparklines.Lines := Sparklines.Lines cpus ++ [cpu_line s c];
          Sparklines.Height := Sparklines.Height cpus + 3 |}.
Proof.
  unfold containerCPU_step, cpu_line.
  rewrite genCPUSystemUsage_adjacent. fold (cpu_series (stats_of (statsData s) (Id c))).
  destruct (len (stats_of (statsData s) (Id c)) >? 1) eqn:Hlen.
  - by rewrite cpuPercent_last.
  - by rewrite cpu_series_short.
Qed.

Lemma containerCPU_loop (s : state) (rest : list Container) :
  ∀ (i : nat) (cpus : Sparklines.t),
  foldM_i (λ _, containerCPU_step s) i rest cpus
  = Ok {| Sparklines.Lines := Sparklines.Lines cpus ++ (cpu_line s <$> rest);
          Sparklines.Height := Sparklines.Height cpus + 3 * len rest |}.
Proof.
  induction rest as [|c rest IH]; intros i cpus; simpl.
  - rewrite app_nil_r. destruct cpus. simpl. f_equal. f_equal. unfold len. simpl. lia.
  - rewrite containerCPU_step_line. simpl. rewrite IH. simpl.
    rewrite <- app_assoc. simpl. f_equal. f_equal. unfold len. simpl length. lia.
Qed.

(** [containerCPU] never panics.  It gives one sparkline per listed
    container, in the order of the list, with the CPU series of its history
    as data; the percent in the title is the last value of that series, or
    0 when the series is empty; the widget is three rows per container
    high, plus two. *)
Theorem containerCPU_lines (s : state) :
  containerCPU s
  = Ok {| Sparklines.Lines := cpu_line s <$> allcontainers s;
          Sparklines.Height := 2 + 3 * len (allcontainers s) |}.
Proof.
  unfold containerCPU.
  rewrite (for_range_foldM (λ _, containerCPU_step s)).
  by rewrite containerCPU_loop.
Qed.

Lemma containerValueMemory_step_label (s : state) (i : nat) (c : Container)
    (labels : list string) :
  containerValueMemory_step s i c labels = Ok (labels ++ [value_label s i c]).
Proof.
  unfold containerValueMemory_step, value_label.
  destruct (len (stats_of (statsData s) (Id c)) >? 1) eqn:Hlen.
  - destruct (index_latest _ Hlen) as (l & -> & _ & ->). done.
  - by rewrite latest_short.
Qed.

Lemma containerValueMemory_loop (s : state) (rest : list Container) :
  ∀ (i : nat) (labels : list string),
  foldM_i (containerValueMemory_step s) i rest labels
  = Ok (labels ++ imap (λ j, value_label s (i + j)) rest).
Proof.
  induction rest as [|c rest IH]; intros i labels; simpl.
  - by rewrite app_nil_r.
  - rewrite containerValueMemory_step_label. simpl. rewrite IH, <- app_assoc.
    simpl. rewrite Nat.add_0_r. do 3 f_equal.
    apply imap_ext. intros j x _. simpl. f_equal. lia.
Qed.

(** [containerValueMemory] never panics.  It gives one label per listed
    container: its position and the usage of the last snapshot, or "0b"
    when the history has fewer than two snapshots. *)
Theorem containerValueMemory_items (s : state) :
  containerValueMemory s
  = Ok {| Items := imap (value_label s) (allcontainers s);
          Height := len (allcontainers s) + 2 |}.
Proof.
  unfold containerValueMemory.
  rewrite (for_range_foldM (containerValueMemory_step s)).
  rewrite containerValueMemory_loop. simpl. do 2 f_equal.
  unfold len. by rewrite length_imap.
Qed.

Lemma containerPercentMemory_step_spec (s : state) (i : nat) (c : Container)
    (lu : list string * list Z) :
  containerPercentMemory_step s i c lu
  = if zero_limit s c then Panic DivideByZero
    else Ok (lu.1 ++ [barLabel i],
             lu.2 ++ option_list (percent_of_latest s c)).
Proof.
  unfold containerPercentMemory_step, zero_limit, percent_of_latest.
  destruct (len (stats_of (statsData s) (Id c)) >? 1) eqn:Hlen.
  - destruct (index_latest _ Hlen) as (l & -> & _ & ->). simpl.
    unfold memusedP, U64.div.
    by destruct (Limit (MemoryStats l) =? 0).
  - rewrite latest_short by done. simpl. by rewrite app_nil_r.
Qed.

Lemma containerPercentMemory_loop (s : state) (rest : list Container) :
  ∀ (i : nat) (lu : list string * list Z),
  foldM_i (containerPercentMemory_step s) i rest lu
  = if existsb (zero_limit s) rest then Panic DivideByZero
    else Ok (lu.1 ++ imap (λ j _, barLabel (i + j)) rest,
             lu.2 ++ omap (percent_of_latest s) rest).
Proof.
  induction rest as [|c rest IH]; intros i lu; simpl.
  - rewrite !app_nil_r. by destruct lu.
  - rewrite containerPercentMemory_step_spec.
    destruct (zero_limit s c); simpl; [done|].
    rewrite IH. destruct (existsb (zero_limit s) rest); [done|]. simpl.
    rewrite <- !app_assoc. simpl. rewrite Nat.add_0_r. f_equal. f_equal.
    + do 2 f_equal. apply imap_ext. intros j x _. simpl. f_equal. lia.
    + f_equal. by destruct (percent_of_latest s c).
Qed.

Lemma omap_length_le {A B} (f : A → option B) (l : list A) :
  (length (omap f l) ≤ length l)%nat.
Proof.
  induction l as [|x l IH]; [done|].
  cbn [omap list_omap]. destruct (f x); cbn [length]; lia.
Qed.

(** [containerPercentMemory] panics, with a division by zero, exactly when
    the latest snapshot of some listed container with at least two
    snapshots reports the limit 0.  Otherwise the chart has one label per
    listed container, and one value for each of those with at least two
    snapshots: with a container of fewer snapshots in the list, the values
    after it stand under the labels of the containers before them. *)
Theorem containerPercentMemory_chart (s : state) :
  if existsb (zero_limit s) (allcontainers s)
  then containerPercentMemory s = Panic DivideByZero
  else ∃ chart,
         containerPercentMemory s = Ok chart ∧
         DataLabels chart = imap (λ i _, barLabel i) (allcontainers s) ∧
         Data chart = omap (percent_of_latest s) (allcontainers s) ∧
         (length (Data chart) ≤ length (DataLabels chart))%nat.
Proof.
  unfold containerPercentMemory.
  change (for_range (length (allcontainers s)) _ ([], []))
    with (for_range (length (allcontainers s))
            (λ i acc, do! c ← index (allcontainers s) (Z.of_nat i);
                      containerPercentMemory_step s i c acc)
            ([] : list string, [] : list Z)).
  rewrite (for_range_foldM (containerPercentMemory_step s)).
  rewrite containerPercentMemory_loop.
  destruct (existsb (zero_limit s) (allcontainers s)); [done|].
  eexists. split; [done|]. simpl. split; [done|]. split; [done|].
  rewrite length_imap. apply omap_length_le.
Qed.

Lemma int_sub_100 (p : Z) :
  101 - 2 ^ 63 ≤ p < 2 ^ 63 → p + int_sub 100 p = 100.
Proof.
  intros Hp. unfold int_sub, Int.of_u64, U64.wrap, U64.modulus.
  destruct (Z_lt_le_dec (100 - p) 0) as [Hneg|Hpos].
  - replace ((100 - p) mod 2 ^ 64) with (100 - p + 2 ^ 64)
      by (apply Z.mod_unique with (-1); lia).
    destruct (Z.ltb_spec (100 - p + 2 ^ 64) (2 ^ 63)); lia.
  - rewrite Z.mod_small by lia.
    destruct (Z.ltb_spec (100 - p) (2 ^ 63)); lia.
Qed.

Lemma ContainerMemory_loop (s : state) (rest : list Container) :
  ∀ (i : nat) (acc : list string * list Z * list Z),
  acc.2 = int_sub 100 <$> acc.1.2 →
  match foldM_i (ContainerMemory_step s) i rest acc with
  | Ok r => r.2 = int_sub 100 <$> r.1.2 ∧
            length r.1.1 = (length acc.1.1 + length rest)%nat ∧
            (length r.1.2 ≤ length acc.1.2 + length rest)%nat
  | Panic p => p = DivideByZero ∧ existsb (zero_limit s) rest = true
  end.
Proof.
  induction rest as [|c rest IH]; intros i acc Hacc; simpl.
  - repeat split; try done; lia.
  - unfold ContainerMemory_step at 1. unfold zero_limit at 1.
    destruct (len (stats_of (statsData s) (Id c)) >? 1) eqn:Hlen.
    + destruct (index_latest _ Hlen) as (l & -> & _ & ->). simpl.
      unfold memusedP, U64.div.
      destruct (Limit (MemoryStats l) =? 0); simpl; [done|].
      match goal with |- context [foldM_i _ _ _ ?a] => specialize (IH (S i) a) end.
      simpl in IH. rewrite fmap_app, <- Hacc in IH. specialize (IH eq_refl).
      destruct (foldM_i _ _ _ _) as [r|p]; [|done].
      rewrite !length_app in IH. simpl in IH.
      destruct IH as (? & ? & ?). repeat split; try done; lia.
    + rewrite latest_short by done. simpl.
      match goal with |- context [foldM_i _ _ _ ?a] => specialize (IH (S i) a) end.
      simpl in IH. specialize (IH Hacc).
      destruct (foldM_i _ _ _ _) as [r|p]; [|done].
      rewrite !length_app in IH. simpl in IH.
      destruct IH as (? & ? & ?). repeat split; try done; lia.
Qed.

(** [ContainerMemory], the drawer of the earlier version with a bar for the
    used and a bar for the free memory: when it returns, there is one label
    per listed container and the two bars have one value each per container
    with at least two snapshots; a used percent and its free percent add up
    to 100 (unless the used percent has wrapped to below 101 - 2^63).  Its
    only panic is the division by a zero limit. *)
Theorem ContainerMemory_used_and_free (s : state) :
  match ContainerMemory s with
  | Ok (labels, used, free) =>
      length labels = length (allcontainers s) ∧
      (length used ≤ length labels)%nat ∧
      length free = length used ∧
      (∀ i u f, used !! i = Some u → free !! i = Some f →
                101 - 2 ^ 63 ≤ u < 2 ^ 63 → u + f = 100)
  | Panic p => p = DivideByZero ∧ existsb (zero_limit s) (allcontainers s) = true
  end.
Proof.
  unfold ContainerMemory.
  rewrite (for_range_foldM (ContainerMemory_step s)).
  pose proof (ContainerMemory_loop s (allcontainers s) 0 ([], [], []) eq_refl) as H.
  destruct (foldM_i _ _ _ _) as [[[labels used] free]|p]; [|done].
  simpl in H. destruct H as (Hfree & Hlab & Hlen).
  split; [done|]. split; [lia|]. split; [by rewrite Hfree, length_fmap|].
  intros i u f Hu Hf Hrange. rewrite Hfree, list_lookup_fmap, Hu in Hf.
  injection Hf as <-. by apply int_sub_100.
Qed.

Lemma string_length_app (a b : string) :
  String.length (a +:+ b) = (String.length a + String.length b)%nat.
Proof. induction a as [|c a IH]; simpl; [done|]. by rewrite IH. Qed.

Lemma string_length_substring_0 (n : nat) : ∀ s : string,
  String.length (String.substring 0 n s) = (n `min` String.length s)%nat.
Proof.
  induction n as [|n IH]; intros [|c s]; simpl; try done.
  by rewrite IH.
Qed.

Lemma genContainerListName_cases (idx : nat) (c : Container) (maxlen : nat) :
  (3 ≤ maxlen)%nat →
  match Names c with
  | [] => genContainerListName idx c maxlen = Panic IndexOutOfRange
  | name :: _ =>
      ∃ entry, genContainerListName idx c maxlen = Ok entry ∧
        (String.length entry ≤ maxlen)%nat ∧
        ((String.length ("[" +:+ pretty idx +:+ "] " +:+ name +:+ ":" +:+ Id c)
            ≤ maxlen)%nat →
         entry = "[" +:+ pretty idx +:+ "] " +:+ name +:+ ":" +:+ Id c)
  end.
Proof.
  intros Hmax. unfold genContainerListName.
  destruct (Names c) as [|name names]; [done|].
  change (index (name :: names) 0) with (Ok (A:=string) name).
  cbv beta iota delta [rbind].
  set (full := "[" +:+ pretty idx +:+ "] " +:+ name +:+ ":" +:+ Id c).
  destruct (Nat.ltb_spec maxlen 3) as [Hlt|_]; [lia|].
  destruct (Nat.ltb_spec maxlen (String.length full)) as [Hlong|Hfit].
  - eexists. split; [done|]. split; [|lia].
    rewrite string_length_app, string_length_substring_0. simpl. lia.
  - eexists. split; [done|]. split; [lia|done].
Qed.

(** [genContainerListName] panics on a container without a name.  With a
    name, and a limit of at least 3, the entry is the whole text
    "[idx] name:id" when that fits the limit; otherwise it is the first
    limit - 3 characters of the text followed by three dots, and exactly as
    long as the limit. *)
Theorem genContainerListName_bounded (idx : nat) (c : Container) (maxlen : nat) :
  (3 ≤ maxlen)%nat →
  match Names c with
  | [] => genContainerListName idx c maxlen = Panic IndexOutOfRange
  | name :: _ =>
      let full := "[" +:+ pretty idx +:+ "] " +:+ name +:+ ":" +:+ Id c in
      ∃ entry, genContainerListName idx c maxlen = Ok entry ∧
        (String.length entry ≤ maxlen)%nat ∧
        if (maxlen <? String.length full)%nat
        then entry = String.substring 0 (maxlen - 3) full +:+ "..." ∧
             String.length entry = maxlen
        else entry = full
  end.
Proof.
  intros Hmax. unfold genContainerListName.
  destruct (Names c) as [|name names]; [done|].
  change (index (name :: names) 0) with (Ok (A:=string) name).
  cbv beta iota zeta delta [rbind].
  set (full := "[" +:+ pretty idx +:+ "] " +:+ name +:+ ":" +:+ Id c).
  destruct (Nat.ltb_spec maxlen 3) as [Hlt|_]; [lia|].
  destruct (Nat.ltb_spec maxlen (String.length full)) as [Hlong|Hfit].
  - assert (Hlen : String.length (String.substring 0 (maxlen - 3) full +:+ "...")
                   = maxlen).
    { rewrite string_length_app, string_length_substring_0.
      change (String.length "...") with 3%nat. lia. }
    eexists. split; [done|]. split; [lia|done].
  - eexists. split; [done|]. split; [lia|done].
Qed.

Lemma genContainerListName_bounded_witness :
  genContainerListName 3
    {| Id := "0123456789abcdef0123456789abcdef"; Names := ["/web"] |} 30
  = Ok "[3] /web:0123456789abcdef01...".
Proof.
  pose proof (genContainerListName_bounded 3
    {| Id := "0123456789abcdef0123456789abcdef"; Names := ["/web"] |} 30) as H.
  simpl in H. destruct H as (entry & H & _); [lia|]. reflexivity.
Defined.

Lemma index_last_default (data : list Z) :
  (if len data >? 0 then index data (len data - 1) else Ok 0)
  = Ok (default 0 (last data)).
Proof.
  unfold len. destruct data as [|x data] using rev_ind; [done|].
  rewrite length_app. simpl length.
  destruct (Z.gtb_spec (Z.of_nat (length data + 1)) 0); [|lia].
  rewrite last_snoc. simpl.
  replace (Z.of_nat (length data + 1) - 1) with (Z.of_nat (length data)) by lia.
  apply index_lookup. by rewrite list_lookup_middle.
Qed.

Lemma containerNetworkBytes_loop (differ : networkDiffer) (s : state)
    (rest : list Container) :
  ∀ (i : nat) (netw : Sparklines.t),
  Forall (λ c, Names c ≠ []) rest →
  ∃ lines,
    foldM_i (containerNetworkBytes_step differ s) i rest netw
    = Ok {| Sparklines.Lines := Sparklines.Lines netw ++ lines;
            Sparklines.Height := Sparklines.Height netw + 3 * len lines |} ∧
    Forall2 (λ ic l, ∃ name,
               genContainerListName ic.1 ic.2 20 = Ok name ∧
               (String.length name ≤ 20)%nat ∧
               l = net_line differ s ic.2 name)
      (filter (has_series s) (indexed_from i rest)) lines.
Proof.
  induction rest as [|c rest IH]; intros i netw Hnames.
  - exists []. simpl. rewrite app_nil_r. destruct netw. simpl.
    split; [do 2 f_equal; unfold len; simpl; lia|constructor].
  - apply Forall_cons in Hnames as [Hc Hrest]. simpl foldM_i.
    cbn [indexed_from]. rewrite filter_cons.
    unfold containerNetworkBytes_step at 1.
    destruct (len (stats_of (statsData s) (Id c)) >? 1) eqn:Hlen.
    + rewrite genNetwork_adjacent. simpl rbind.
      fold (net_series differ (stats_of (statsData s) (Id c))).
      rewrite index_last_default. simpl rbind.
      pose proof (genContainerListName_cases i c 20) as Hname.
      destruct (Names c) as [|n ns] eqn:Hn; [done|].
      destruct Hname as (name & Hname & Hle & _); [lia|]. rewrite Hname.
      simpl rbind.
      match goal with |- context [foldM_i _ _ _ ?a] =>
        destruct (IH (S i) a Hrest) as (lines & -> & Hlines) end.
      cbn [rbind Sparklines.Lines Sparklines.Height].
      eexists (_ :: lines). rewrite <- app_assoc.
      split; [cbn [app]; do 2 f_equal; unfold len; simpl length; lia|].
      rewrite decide_True by (by apply Z.gtb_lt in Hlen).
      constructor; [|done]. exists name. by repeat split.
    + simpl rbind. destruct (IH (S i) netw Hrest) as (lines & -> & Hlines).
      exists lines. split; [done|].
      rewrite decide_False; [done|].
      unfold has_series. cbn [snd]. intros Hlt%Z.gtb_lt. congruence.
Qed.

Lemma net_lines_data (differ : networkDiffer) (s : state) (cs : list Container) :
  ∀ (i : nat) (lines : list Sparkline.t),
  Forall2 (λ ic l, ∃ name,
             genContainerListName ic.1 ic.2 20 = Ok name ∧
             (String.length name ≤ 20)%nat ∧
             l = net_line differ s ic.2 name)
    (filter (has_series s) (indexed_from i cs)) lines →
  Sparkline.Data <$> lines
  = (λ c, net_series differ (stats_of (statsData s) (Id c)))
      <$> filter (λ c, 1 < len (stats_of (statsData s) (Id c))) cs.
Proof.
  induction cs as [|c cs IH]; intros i lines Hlines.
  - cbn [indexed_from] in Hlines. rewrite filter_nil in Hlines.
    by apply Forall2_nil_inv_l in Hlines as ->.
  - cbn [indexed_from] in Hlines. rewrite filter_cons in Hlines.
    rewrite filter_cons.
    change (1 < len (stats_of (statsData s) (Id c))) with (has_series s (i, c)).
    destruct (decide (has_series s (i, c))) as [Hc|Hc].
    + apply Forall2_cons_inv_l in Hlines as (l & lines' & Hl & Hlines' & ->).
      destruct Hl as (name & _ & _ & ->).
      rewrite !fmap_cons. f_equal. exact (IH (S i) lines' Hlines').
    + exact (IH (S i) lines Hlines).
Qed.

(** [containerNetworkBytes], for either differ: when every listed container
    carries a name it does not panic, and it gives one sparkline for each
    listed container with at least two snapshots, in the order of the list,
    with the differences of its history as data.  The title of the line of
    the container [c] at the position [idx] of the list shows the last
    difference, converted to [uint64], as a number of bytes, and then the
    entry [genContainerListName idx c 20] of that container, which is at
    most 20 characters long. *)
Theorem containerNetworkBytes_lines (differ : networkDiffer) (s : state) :
  Forall (λ c, Names c ≠ []) (allcontainers s) →
  ∃ netw,
    containerNetworkBytes differ s = Ok netw ∧
    Forall2 (λ ic l, ∃ name,
               genContainerListName ic.1 ic.2 20 = Ok name ∧
               (String.length name ≤ 20)%nat ∧
               l = net_line differ s ic.2 name)
      (filter (has_series s) (indexed_from 0 (allcontainers s)))
      (Sparklines.Lines netw) ∧
    Sparkline.Data <$> Sparklines.Lines netw
    = (λ c, net_series differ (stats_of (statsData s) (Id c)))
        <$> filter (λ c, 1 < len (stats_of (statsData s) (Id c))) (allcontainers s) ∧
    Sparklines.Height netw = 2 + 3 * len (Sparklines.Lines netw).
Proof.
  intros Hnames. unfold containerNetworkBytes.
  rewrite (for_range_foldM (containerNetworkBytes_step differ s)).
  destruct (containerNetworkBytes_loop differ s (allcontainers s) 0
              {| Sparklines.Lines := []; Sparklines.Height := 2 |} Hnames)
    as (lines & -> & Hlines).
  eexists. split; [done|]. cbn [Sparklines.Lines Sparklines.Height app].
  split; [done|]. split; [|done].
  exact (net_lines_data differ s (allcontainers s) 0 lines Hlines).
Qed.

(** Container A at position 0 has one snapshot and gets no line; the line
    of B carries the position 1 of B in the list. *)
Lemma containerNetworkBytes_lines_witness :
  ∃ netw,
    containerNetworkBytes rxDiffer
      (state_of [container_A; container_B] 0 ""
         {[ "A" := [net_snapshot 1 1000 0];
            "B" := [net_snapshot 1 1000 0; net_snapshot 2 900 0] ]} 80) = Ok netw ∧
    Sparklines.Lines netw
    = [{| Sparkline.Title := "[16777215tb] [1] /b:B";
          Sparkline.Data := [-100];
          Sparkline.Height := 2 |}] ∧
    Sparklines.Height netw = 5.
Proof.
  destruct (containerNetworkBytes_lines rxDiffer
              (state_of [container_A; container_B] 0 ""
                 {[ "A" := [net_snapshot 1 1000 0];
                    "B" := [net_snapshot 1 1000 0; net_snapshot 2 900 0] ]} 80))
    as (netw & Hn & Hlines & _ & Hh).
  - repeat constructor; discriminate.
  - exists netw. split; [done|].
    apply Forall2_cons_inv_l in Hlines as (l & lines & Hl & Hrest & Heq).
    apply Forall2_nil_inv_l in Hrest as ->.
    destruct Hl as (name & Hname & _ & ->).
    injection Hname as <-.
    split; [by rewrite Heq|]. rewrite Hh, Heq. reflexivity.
Defined.

(** ** Numbers for display *)

Lemma int_of_u64_small (x : Z) : 0 ≤ x < 2 ^ 63 → Int.of_u64 x = x.
Proof. intros H. unfold Int.of_u64. destruct (Z.ltb_spec x (2 ^ 63)); lia. Qed.

(** [memAsString] shows a [uint64] in the largest unit that it reaches:
    the quotient by the unit, cut not rounded, which is below 1024 for
    every unit but "tb" and at least 1 for every unit but "b". *)
Theorem memAsString_units (val : Z) :
  U64.wf val →
  ∃ n unit scale,
    (unit, scale) ∈ [("b", 1); ("kb", kb); ("mb", mb); ("gb", gb); ("tb", tb)] ∧
    memAsString val = pretty n +:+ unit ∧
    n = val / scale ∧ n * scale ≤ val < (n + 1) * scale ∧
    (unit ≠ "tb" → n < 1024) ∧ (unit ≠ "b" → 1 ≤ n).
Proof.
  unfold U64.wf, U64.modulus. intros Hwf. unfold memAsString.
  assert (Hdiv : ∀ scale, 0 < scale →
            (val / scale) * scale ≤ val < (val / scale + 1) * scale).
  { intros scale Hs. pose proof (Z.mul_div_le val scale Hs).
    pose proof (Z.mul_succ_div_gt val scale Hs). lia. }
  assert (Hsmall : ∀ scale, 1024 ≤ scale → 0 ≤ val / scale < 2 ^ 63).
  { intros scale Hs. split; [apply Z.div_pos; lia|].
    apply Z.div_lt_upper_bound; lia. }
  unfold tb, gb, mb, kb in *.
  destruct (Z.leb_spec (1024 * 1024 * 1024 * 1024) val) as [Htb|Htb].
  { exists (val / (1024 * 1024 * 1024 * 1024)), "tb", (1024 * 1024 * 1024 * 1024).
    rewrite int_of_u64_small by (apply Hsmall; lia).
    split; [do 4 right; left|]. split; [done|]. split; [done|].
    split; [apply Hdiv; lia|]. split; [done|].
    intros _. apply Z.div_le_lower_bound; lia. }
  destruct (Z.leb_spec (1024 * 1024 * 1024) val) as [Hgb|Hgb].
  { exists (val / (1024 * 1024 * 1024)), "gb", (1024 * 1024 * 1024).
    rewrite int_of_u64_small by (apply Hsmall; lia).
    split; [do 3 right; left|]. split; [done|]. split; [done|].
    split; [apply Hdiv; lia|].
    split; [intros _; apply Z.div_lt_upper_bound; lia|].
    intros _. apply Z.div_le_lower_bound; lia. }
  destruct (Z.leb_spec (1024 * 1024) val) as [Hmb|Hmb].
  { exists (val / (1024 * 1024)), "mb", (1024 * 1024).
    rewrite int_of_u64_small by (apply Hsmall; lia).
    split; [do 2 right; left|]. split; [done|]. split; [done|].
    split; [apply Hdiv; lia|].
    split; [intros _; apply Z.div_lt_upper_bound; lia|].
    intros _. apply Z.div_le_lower_bound; lia. }
  destruct (Z.leb_spec 1024 val) as [Hkb|Hkb].
  { exists (val / 1024), "kb", 1024.
    rewrite int_of_u64_small by (apply Hsmall; lia).
    split; [right; left|]. split; [done|]. split; [done|].
    split; [apply Hdiv; lia|].
    split; [intros _; apply Z.div_lt_upper_bound; lia|].
    intros _. apply Z.div_le_lower_bound; lia. }
  exists val, "b", 1. rewrite Z.div_1_r.
  split; [left|]. split; [done|]. split; [done|].
  split; [lia|]. split; [lia|done].
Qed.

Lemma memAsString_units_witness :
  ∃ n unit scale,
    (unit, scale) ∈ [("b", 1); ("kb", kb); ("mb", mb); ("gb", gb); ("tb", tb)] ∧
    memAsString 1535 = pretty n +:+ unit ∧
    n = 1535 / scale ∧ n * scale ≤ 1535 < (n + 1) * scale ∧
    (unit ≠ "tb" → n < 1024) ∧ (unit ≠ "b" → 1 ≤ n).
Proof. apply (memAsString_units 1535). vm_compute. split; congruence. Defined.

(** A network counter that went down, by up to a terabyte, is shown by
    [containerNetworkBytes] as "16777215tb": the negative difference is
    converted to [uint64] before [memAsString] sees it. *)
Theorem negative_delta_shows_as_terabytes (tx : Z) :
  - tb ≤ tx < 0 → memAsString (uint64_of_int tx) = "16777215tb".
Proof.
  unfold tb, gb, mb, kb. intros Htx.
  unfold uint64_of_int, U64.wrap, U64.modulus.
  replace (tx mod 2 ^ 64) with (tx + 2 ^ 64)
    by (apply Z.mod_unique with (-1); lia).
  unfold memAsString, tb, gb, mb, kb.
  destruct (Z.leb_spec (1024 * 1024 * 1024 * 1024) (tx + 2 ^ 64)); [|lia].
  replace ((tx + 2 ^ 64) / (1024 * 1024 * 1024 * 1024)) with 16777215.
  - vm_compute. reflexivity.
  - apply Z.div_unique with (tx + 2 ^ 64 - 16777215 * (1024 * 1024 * 1024 * 1024)); lia.
Qed.

Lemma negative_delta_shows_as_terabytes_witness :
  memAsString (uint64_of_int (-100)) = "16777215tb".
Proof.
  apply (negative_delta_shows_as_terabytes (-100)). vm_compute.
  split; congruence.
Defined.

Lemma findMaxInt_fold (vals : list Z) : ∀ m,
  let r := foldl (λ max v, if v >? max then v else max) m vals in
  m ≤ r ∧ Forall (λ x, x ≤ r) vals ∧ r ∈ m :: vals.
Proof.
  induction vals as [|v vals IH]; intros m; simpl.
  - split; [lia|]. split; [done|]. left.
  - destruct (IH (if v >? m then v else m)) as (Hle & Hall & Hin).
    destruct (Z.gtb_spec v m) as [Hgt|Hngt].
    + split; [lia|]. split; [constructor; [lia|done]|].
      apply elem_of_cons in Hin as [->|Hin]; [right; left|by do 2 right].
    + split; [lia|]. split; [constructor; [lia|done]|].
      apply elem_of_cons in Hin as [->|Hin]; [left|by do 2 right].
Qed.

(** [findMaxInt] gives 0 for no value; otherwise one of the values, and
    none of them is above it. *)
Theorem findMaxInt_is_maximum (vals : list Z) :
  match vals with
  | [] => findMaxInt vals = 0
  | _ :: _ => findMaxInt vals ∈ vals ∧ Forall (λ x, x ≤ findMaxInt vals) vals
  end.
Proof.
  destruct vals as [|v0 vals]; [done|]. unfold findMaxInt.
  destruct (findMaxInt_fold (v0 :: vals) v0) as (Hle & Hall & Hin).
  split; [|done].
  apply elem_of_cons in Hin as [->|Hin]; [left|done].
Qed.

(** ** More on the series *)

Lemma int_of_u64_sub_mod (x y : Z) :
  Int.of_u64 (U64.sub x y) mod U64.modulus = (x - y) mod U64.modulus.
Proof.
  unfold Int.of_u64, U64.sub, U64.wrap, U64.modulus.
  destruct (_ <? _).
  - apply Z.mod_mod. lia.
  - rewrite <- (Z.mod_mod (x - y) (2 ^ 64)) at 2 by lia.
    replace ((x - y) mod 2 ^ 64 - 2 ^ 64)
      with ((x - y) mod 2 ^ 64 + (-1) * 2 ^ 64) by lia.
    apply Z_mod_plus_full.
Qed.

Lemma adjacent_cons_cons {A B} (f : A → A → B) (x y : A) (l : list A) :
  adjacent f (x :: y :: l) = f x y :: adjacent f (y :: l).
Proof. reflexivity. Qed.

Lemma net_series_telescopes (field : network_stats → Z) (differ : networkDiffer) :
  (∀ cur prev, differ cur prev mod U64.modulus
               = (field cur - field prev) mod U64.modulus) →
  ∀ (rest : list Stats) (first : Stats),
  foldr Z.add 0 (net_series differ (first :: rest)) mod U64.modulus
  = (field (NetworkStats (default first (last rest)))
     - field (NetworkStats first)) mod U64.modulus.
Proof.
  intros Hd. induction rest as [|y rest IH]; intros first.
  - simpl. by rewrite Z.sub_diag.
  - unfold net_series in *. rewrite adjacent_cons_cons. simpl foldr.
    rewrite Z.add_mod, Hd, IH, <- Z.add_mod by (unfold U64.modulus; lia).
    f_equal.
    replace (default first (last (y :: rest))) with (default y (last rest)).
    + lia.
    + destruct rest as [|z rest] using rev_ind; [done|].
      by rewrite app_comm_cons, !last_snoc.
Qed.

(** The network series of a history adds up, modulo 2^64, to the
    difference between the counters of its last and of its first snapshot,
    for the received and for the sent bytes. *)
Theorem network_series_adds_up (first : Stats) (rest : list Stats) :
  ∃ rx tx,
    genNetwork (first :: rest) rxDiffer = Ok rx ∧
    genNetwork (first :: rest) txDiffer = Ok tx ∧
    foldr Z.add 0 rx mod U64.modulus
    = (RxBytes (NetworkStats (default first (last rest)))
       - RxBytes (NetworkStats first)) mod U64.modulus ∧
    foldr Z.add 0 tx mod U64.modulus
    = (TxBytes (NetworkStats (default first (last rest)))
       - TxBytes (NetworkStats first)) mod U64.modulus.
Proof.
  eexists _, _. split; [apply genNetwork_adjacent|].
  split; [apply genNetwork_adjacent|]. split.
  - apply (net_series_telescopes RxBytes rxDiffer).
    intros cur prev. apply int_of_u64_sub_mod.
  - apply (net_series_telescopes TxBytes txDiffer).
    intros cur prev. apply int_of_u64_sub_mod.
Qed.

(** [cpuPercent] reads the snapshots at [idx] and [idx - 1]: it returns
    for an index from 1 to the length of the history less one, and panics
    with an index out of range for every other one, 0 included. *)
Theorem cpuPercent_index_bounds (stats : list Stats) (idx : Z) :
  (1 ≤ idx < len stats → ∃ v, cpuPercent stats idx = Ok v) ∧
  (¬ (1 ≤ idx < len stats) → cpuPercent stats idx = Panic IndexOutOfRange).
Proof.
  unfold len. split.
  - intros Hidx.
    destruct (lookup_lt_is_Some_2 stats (Z.to_nat idx - 1)) as [prev Hprev]; [lia|].
    destruct (lookup_lt_is_Some_2 stats (S (Z.to_nat idx - 1))) as [cur Hcur]; [lia|].
    exists (cpuPercent_of cur prev).
    replace idx with (Z.of_nat (S (Z.to_nat idx - 1))) by lia.
    by apply cpuPercent_adjacent.
  - intros Hidx. unfold cpuPercent, index.
    destruct (Z.ltb_spec idx 0); [done|].
    destruct (stats !! Z.to_nat idx) as [cur|] eqn:Hcur; simpl; [|done].
    apply lookup_lt_Some in Hcur.
    destruct (Z.ltb_spec (idx - 1) 0); [done|]. lia.
Qed.

(** ** More on the history of a container *)

(** [dockerStats] panics in one case only: a first snapshot for a
    container arrives while the panel is less than 2 columns wide; the trim
    then slices the empty history. *)
Theorem dockerStats_panics_on_narrow_panel (s : state) (id : string) (x : Stats) :
  (stats_of (statsData s) id = [] ∧ bodyWidth s < 2 →
   dockerStats id x s = Panic SliceBoundsOutOfRange) ∧
  (stats_of (statsData s) id ≠ [] ∨ 2 ≤ bodyWidth s →
   ∃ s', dockerStats id x s = Ok s').
Proof.
  unfold dockerStats, len. split.
  - intros [-> Hw]. cbn [length]. change (Z.of_nat 0) with 0.
    destruct (Z.gtb_spec 0 (bodyWidth s - 2)); [reflexivity|lia].
  - intros Hroom. destruct (stats_of (statsData s) id) as [|y dat] eqn:Hdat.
    + destruct Hroom as [|Hw]; [done|]. cbn [length]. change (Z.of_nat 0) with 0.
      destruct (Z.gtb_spec 0 (bodyWidth s - 2)); [lia|]. simpl. eauto.
    + destruct (_ >? _); simpl; destruct (same_read _ _); eauto.
Qed.

(** A history never gets shorter: a snapshot leaves its length as it is or
    adds one to it, and a history longer than the capacity keeps its
    length, so after the panel was narrowed the history is not cut down to
    the new width. *)
Theorem dockerStats_history_never_shrinks (s : state) (id : string) (x : Stats) :
  stats_of (statsData s) id ≠ [] ∨ 2 ≤ bodyWidth s →
  ∃ s', dockerStats id x s = Ok s' ∧
    len (stats_of (statsData s) id) ≤ len (stats_of (statsData s') id)
      ≤ len (stats_of (statsData s) id) + 1 ∧
    (capacity s < len (stats_of (statsData s) id) →
     len (stats_of (statsData s') id) = len (stats_of (statsData s) id)).
Proof.
  intros Hroom. unfold dockerStats, capacity.
  destruct (stats_of (statsData s) id) as [|y dat] eqn:Hdat.
  - destruct Hroom as [|Hw]; [done|]. unfold len. cbn [length].
    change (Z.of_nat 0) with 0.
    destruct (Z.gtb_spec 0 (bodyWidth s - 2)); [lia|]. cbn.
    eexists. split; [reflexivity|]. cbn. rewrite stats_of_insert. cbn. lia.
  - unfold len at 1. destruct (Z.gtb_spec (Z.of_nat (length (y :: dat))) (bodyWidth s - 2)).
    + unfold slice_from. simpl. rewrite drop_0. destruct (same_read dat x).
      * eexists. split; [done|]. rewrite Hdat. lia.
      * eexists. split; [done|]. simpl. rewrite stats_of_insert.
        unfold len. rewrite length_app. simpl. lia.
    + simpl. destruct (same_read (y :: dat) x).
      * eexists. split; [done|]. rewrite Hdat. unfold len in *. lia.
      * eexists. split; [done|]. cbn [statsData set_statsData].
        rewrite stats_of_insert.
        unfold len in *. simpl in *. rewrite length_app. simpl. lia.
Qed.

Lemma dockerStats_history_never_shrinks_witness :
  ∃ s', dockerStats "A" (net_snapshot 4 0 0)
          (state_of [container_A] 0 ""
             {[ "A" := [net_snapshot 1 0 0; net_snapshot 2 0 0; net_snapshot 3 0 0] ]} 3)
        = Ok s' ∧
        len (stats_of (statsData s') "A") = 3.
Proof.
  destruct (dockerStats_history_never_shrinks
              (state_of [container_A] 0 ""
                 {[ "A" := [net_snapshot 1 0 0; net_snapshot 2 0 0;
                            net_snapshot 3 0 0] ]} 3)
              "A" (net_snapshot 4 0 0)) as (s' & Hs' & _ & Hkeep).
  - left. vm_compute. congruence.
  - exists s'. split; [done|]. rewrite Hkeep; vm_compute; reflexivity.
Defined.

(** A snapshot for one container leaves the histories of the others, the
    list, the selection, the width and the monitors as they are. *)
Theorem dockerStats_touches_one_history (s : state) (id : string) (x : Stats) :
  match dockerStats id x s with
  | Ok s' =>
      (∀ id', id' ≠ id → statsData s' !! id' = statsData s !! id') ∧
      allcontainers s' = allcontainers s ∧
      containerDetailsIndex s' = containerDetailsIndex s ∧
      containerDetailsID s' = containerDetailsID s ∧
      bodyWidth s' = bodyWidth s ∧ monitors s' = monitors s
  | Panic _ => True
  end.
Proof.
  unfold dockerStats.
  destruct (if _ >? _ then _ else _) as [dat|]; simpl; [|done].
  destruct (same_read dat x); simpl; [done|].
  split; [|done]. intros id' Hne. by rewrite lookup_insert_ne.
Qed.

(** A container that is not listed loses its history at the refresh; when
    a snapshot for it arrives afterwards (and the panel is at least 2
    columns wide), a new history starts with that snapshot alone. *)
Theorem evicted_container_starts_afresh
    (cs : list Container) (s : state) (id : string) (x : Stats) :
  Forall (λ c, Names c ≠ []) cs → id ∉ Id <$> cs → 2 ≤ bodyWidth s →
  ∃ s1, reconcile cs s = Some s1 ∧ statsData s1 !! id = None ∧
        history_after id [x] s1 = Some [x].
Proof.
  intros Hnames Hid Hw. exists (reconciled cs s).
  split; [by apply reconcile_reconciled|].
  assert (Hnone : statsData (reconciled cs s) !! id = None).
  { simpl. rewrite kept_lookup. by rewrite decide_False. }
  split; [done|].
  destruct (dockerStats_fresh_read (reconciled cs s) id [] x) as (s' & Hs' & _ & Hh).
  - unfold stats_of. by rewrite Hnone.
  - unfold capacity. simpl. lia.
  - unfold capacity, len. simpl. lia.
  - done.
  - unfold history_after. simpl. rewrite Hs'. simpl. rewrite Hh, stats_of_insert.
    rewrite take_last_all; [done|]. unfold capacity. simpl. lia.
Qed.

Lemma evicted_container_starts_afresh_witness :
  ∃ s1, reconcile [container_B]
          (state_of [container_A; container_B] 0 "A"
             {[ "A" := [net_snapshot 1 0 0; net_snapshot 2 0 0] ]} 80) = Some s1 ∧
        statsData s1 !! "A" = None ∧
        history_after "A" [net_snapshot 3 0 0] s1 = Some [net_snapshot 3 0 0].
Proof.
  apply (evicted_container_starts_afresh [container_B]
           (state_of [container_A; container_B] 0 "A"
              {[ "A" := [net_snapshot 1 0 0; net_snapshot 2 0 0] ]} 80)
           "A" (net_snapshot 3 0 0)).
  - repeat constructor; discriminate.
  - apply (bool_decide_unpack _). vm_compute. exact I.
  - vm_compute. congruence.
Defined.

(** ** More on the refresh and the details *)

Lemma missing_empty (cs : list Container) : missing cs ∅ = Id <$> cs.
Proof.
  unfold missing. induction (Id <$> cs) as [|id ids IH]; [done|].
  rewrite filter_cons, IH. by rewrite decide_True by apply lookup_empty.
Qed.

(** When the list cannot be read, or is empty, the selection is cleared, so
    the details panel shows only its border, and the monitors are stopped.
    A failed listing keeps the histories: at the next refresh the listed
    containers still have theirs.  An empty listing drops them all: at the
    next refresh no container has a history and a monitor is started for
    every listed one. *)
Theorem failed_listing_keeps_histories_empty_listing_drops_them
    (cs : list Container) (s : state) (inspect : string → bool)
    (panel : details_panel) :
  Forall (λ c, Names c ≠ []) cs →
  (∃ s1 s2, containerList None s = Ok (s1, None) ∧
            containerDetails inspect s1 panel = DetailsEmpty ∧
            monitors s1 = [] ∧
            reconcile cs s1 = Some s2 ∧
            ∀ id, statsData s2 !! id
                  = if decide (id ∈ Id <$> cs) then statsData s !! id else None) ∧
  (∃ s1 s2 w, containerList (Some []) s = Ok (s1, Some w) ∧
              containerDetails inspect s1 panel = DetailsEmpty ∧
              monitors s1 = [] ∧ Items w = [] ∧
              reconcile cs s1 = Some s2 ∧
              statsData s2 = ∅ ∧
              monitors s2 = if len cs =? 0 then [] else Id <$> cs).
Proof.
  intros Hnames. split.
  - eexists _, _. split; [reflexivity|]. split; [reflexivity|].
    split; [reflexivity|]. split; [by apply reconcile_reconciled|].
    intros id. simpl. apply kept_lookup.
  - eexists _, _, _. split; [reflexivity|]. split; [reflexivity|].
    split; [reflexivity|]. split; [reflexivity|].
    split; [by apply reconcile_reconciled|]. simpl. split.
    + apply map_eq. intros id. rewrite kept_lookup, lookup_empty. by case_decide.
    + by rewrite missing_empty.
Qed.

Lemma failed_listing_keeps_histories_empty_listing_drops_them_witness :
  ∃ s1 s2, containerList None
             (state_of [container_A] 0 "A" {[ "A" := [net_snapshot 1 0 0] ]} 80)
           = Ok (s1, None) ∧
           containerDetailsID s1 = "" ∧
           reconcile [container_A] s1 = Some s2 ∧
           statsData s2 !! "A" = Some [net_snapshot 1 0 0].
Proof.
  destruct (failed_listing_keeps_histories_empty_listing_drops_them
              [container_A]
              (state_of [container_A] 0 "A" {[ "A" := [net_snapshot 1 0 0] ]} 80)
              (λ _, true) DetailsEmpty)
    as [(s1 & s2 & H1 & _ & _ & H2 & Hl) _].
  - repeat constructor; discriminate.
  - exists s1, s2. split; [done|]. injection H1 as <-.
    split; [reflexivity|]. split; [done|]. by rewrite Hl.
Defined.

(** With an index inside the list, the refresh selects the container at
    that position and the details panel shows it, when the container can
    be inspected (and its id is not the empty string, which stands for "no
    selection"). *)
Theorem selected_container_is_shown (cs : list Container) (s : state)
    (c : Container) (inspect : string → bool) (panel : details_panel) :
  Forall (λ c, Names c ≠ []) cs →
  0 ≤ containerDetailsIndex s →
  cs !! Z.to_nat (containerDetailsIndex s) = Some c →
  Id c ≠ "" → inspect (Id c) = true →
  ∃ s1, reconcile cs s = Some s1 ∧ containerDetailsID s1 = Id c ∧
        containerDetails inspect s1 panel = DetailsOf (Id c).
Proof.
  intros Hnames Hidx Hc Hid Hinsp. exists (reconciled cs s).
  split; [by apply reconcile_reconciled|].
  assert (HID : containerDetailsID (reconciled cs s) = Id c).
  { simpl. unfold selected. rewrite Hc.
    destruct (Z.ltb_spec (containerDetailsIndex s) 0); [lia|].
    destruct cs; [done|]. done. }
  split; [done|]. unfold containerDetails. rewrite HID, Hinsp.
  destruct (String.eqb_spec (Id c) ""); done.
Qed.

Lemma selected_container_is_shown_witness :
  ∃ s1, reconcile [container_A; container_B] (state_of [] 1 "" ∅ 80) = Some s1 ∧
        containerDetailsID s1 = "B" ∧
        containerDetails (λ _, true) s1 DetailsEmpty = DetailsOf "B".
Proof.
  apply (selected_container_is_shown [container_A; container_B]
           (state_of [] 1 "" ∅ 80) container_B (λ _, true) DetailsEmpty).
  - repeat constructor; discriminate.
  - vm_compute. congruence.
  - reflexivity.
  - discriminate.
  - reflexivity.
Defined.

(** ** The stack of panels *)

(** [popPanel] undoes [pushPanel]: on a stack that is not empty, pushing a
    panel and popping it gives back the stack, with the panel that was on
    top as body and as result. *)
Theorem popPanel_after_pushPanel (termWidth : Z) (p b : grid) (a : state * panels) :
  last (uiStack a.2) = Some b →
  popPanel termWidth (pushPanel termWidth p a)
  = (set_bodyWidth termWidth a.1,
     {| uiStack := uiStack a.2; Body := Some b; running := running a.2 |},
     Some b).
Proof.
  intros Hlast. unfold popPanel, pushPanel. cbn [fst snd uiStack running].
  unfold len. rewrite length_app. cbn [length].
  destruct (uiStack a.2) as [|g st] eqn:Hst; [done|].
  destruct (Z.ltb_spec (Z.of_nat (length (g :: st) + 1)) 2);
    [cbn [length] in *; lia|].
  replace (length (g :: st) + 1 - 1)%nat with (length (g :: st)) by lia.
  rewrite take_app_length, Hlast. reflexivity.
Qed.

Lemma popPanel_after_pushPanel_witness :
  popPanel 80 (pushPanel 80 DetailsGrid (start 80 (state_of [] 0 "" ∅ 0)))
  = (start 80 (state_of [] 0 "" ∅ 0), Some MainGrid).
Proof.
  apply (popPanel_after_pushPanel 80 DetailsGrid MainGrid
           (start 80 (state_of [] 0 "" ∅ 0))).
  reflexivity.
Defined.

Lemma snoc_of_length {A} (l : list A) :
  (1 ≤ length l)%nat → ∃ l' x, l = l' ++ [x].
Proof.
  intros Hl. destruct (last l) as [x|] eqn:Hlast.
  - apply last_Some in Hlast as [l' ->]. eauto.
  - apply last_None in Hlast as ->. simpl in Hl. lia.
Qed.

Lemma popPanel_ok (termWidth : Z) (a : state * panels) :
  panels_ok termWidth a →
  panels_ok termWidth (popPanel termWidth a).1 ∧
  ((popPanel termWidth a).2 = None →
   (popPanel termWidth a).1 = a ∧ uiStack a.2 = [MainGrid]).
Proof.
  intros (Hhead & Hlast & Hw). unfold popPanel, len.
  destruct (Z.ltb_spec (Z.of_nat (length (uiStack a.2))) 2) as [Hshort|Hlong].
  - simpl. split; [done|]. intros _. split; [done|].
    destruct (uiStack a.2) as [|g [|g' st]]; simpl in *; try done; try lia.
    by inversion Hhead.
  - destruct (snoc_of_length (uiStack a.2)) as (st & g & Hst); [lia|].
    rewrite Hst in *. rewrite length_app in *. cbn [length] in *.
    replace (length st + 1 - 1)%nat with (length st) by lia.
    rewrite take_app_length.
    destruct (snoc_of_length st) as (st' & g' & ->); [lia|].
    rewrite last_snoc. simpl. split; [|done].
    unfold panels_ok. cbn [fst snd uiStack Body bodyWidth set_bodyWidth].
    split; [|by rewrite last_snoc].
    destruct st'; simpl in *; done.
Qed.

Lemma handle_key_ok (termWidth key : Z) (a : state * panels) :
  panels_ok termWidth a → panels_ok termWidth (handle_key termWidth key a).
Proof.
  intros Hok. unfold handle_key.
  set (a1 := if key =? 113 then _ else a).
  assert (Hok1 : panels_ok termWidth a1).
  { unfold a1. destruct (key =? 113); [|done].
    destruct (popPanel_ok termWidth a Hok) as [Hp _].
    destruct (popPanel termWidth a) as [a' [g|]]; [done|].
    destruct Hp as (? & ? & ?). by repeat split. }
  destruct ((48 <=? key) && (key <=? 57)); [|done].
  destruct Hok1 as (Hhead & Hlast & Hw). unfold pushPanel, panels_ok. simpl.
  rewrite last_snoc, head_app. split; [|done].
  destruct (uiStack a1.2); simpl in *; done.
Qed.

Lemma handle_keys_ok (termWidth : Z) (keys : list Z) : ∀ a : state * panels,
  panels_ok termWidth a → panels_ok termWidth (handle_keys termWidth keys a).
Proof.
  induction keys as [|k keys IH]; intros a Ha; simpl; [done|].
  apply IH. by apply handle_key_ok.
Qed.

(** Whatever keys are typed after the start, the main panel stays at the
    bottom of the stack (so the stack is never empty), the body is the
    panel on top of the stack, and its width is the width of the
    terminal. *)
Theorem panel_stack_invariant (termWidth : Z) (keys : list Z) (s : state) :
  head (uiStack (handle_keys termWidth keys (start termWidth s)).2) = Some MainGrid ∧
  last (uiStack (handle_keys termWidth keys (start termWidth s)).2)
  = Body (handle_keys termWidth keys (start termWidth s)).2 ∧
  bodyWidth (handle_keys termWidth keys (start termWidth s)).1 = termWidth.
Proof.
  change (panels_ok termWidth (handle_keys termWidth keys (start termWidth s))).
  assert (H0 : panels_ok termWidth (start termWidth s)) by done.
  revert H0. generalize (start termWidth s).
  induction keys as [|k keys IH]; intros a Ha; simpl; [done|].
  apply IH. by apply handle_key_ok.
Qed.

Lemma handle_keys_app (termWidth : Z) (k1 k2 : list Z) (a : state * panels) :
  handle_keys termWidth (k1 ++ k2) a
  = handle_keys termWidth k2 (handle_keys termWidth k1 a).
Proof. revert a. induction k1 as [|k k1 IH]; intros a; simpl; [done|apply IH]. Qed.

Lemma handle_digits (termWidth : Z) (digits : list Z) : ∀ a : state * panels,
  Forall (λ k, 48 ≤ k ≤ 57) digits →
  uiStack (handle_keys termWidth digits a).2
  = uiStack a.2 ++ replicate (length digits) DetailsGrid ∧
  running (handle_keys termWidth digits a).2 = running a.2.
Proof.
  induction digits as [|k digits IH]; intros a Hd; simpl.
  - by rewrite app_nil_r.
  - apply Forall_cons in Hd as [Hk Hd].
    destruct (IH (handle_key termWidth k a) Hd) as [-> ->].
    unfold handle_key.
    destruct (Z.eqb_spec k 113); [lia|].
    destruct (Z.leb_spec 48 k); [|lia]. destruct (Z.leb_spec k 57); [|lia].
    simpl. by rewrite <- app_assoc.
Qed.

Lemma handle_quits (termWidth : Z) (n : nat) : ∀ (a : state * panels) (st : list grid) (g : grid),
  uiStack a.2 = (st ++ [g]) ++ replicate n DetailsGrid →
  uiStack (handle_keys termWidth (replicate n 113) a).2 = st ++ [g] ∧
  running (handle_keys termWidth (replicate n 113) a).2 = running a.2 ∧
  (n ≠ 0%nat → Body (handle_keys termWidth (replicate n 113) a).2 = Some g).
Proof.
  induction n as [|n IH]; intros a st g Hst.
  - simpl in *. by rewrite app_nil_r in Hst.
  - rewrite replicate_S. cbn [handle_keys].
    assert (Hpop : popPanel termWidth a
              = (set_bodyWidth termWidth a.1,
                 {| uiStack := (st ++ [g]) ++ replicate n DetailsGrid;
                    Body := last ((st ++ [g]) ++ replicate n DetailsGrid);
                    running := running a.2 |},
                 last ((st ++ [g]) ++ replicate n DetailsGrid))).
    { unfold popPanel, len. rewrite Hst.
      replace (replicate (S n) DetailsGrid) with (replicate n DetailsGrid ++ [DetailsGrid])
        by (clear; induction n; simpl; [done|by f_equal]).
      rewrite app_assoc, !length_app. cbn [length].
      destruct (Z.ltb_spec (Z.of_nat (length st + 1 + length (replicate n DetailsGrid) + 1)) 2);
        [lia|].
      replace (length st + 1 + length (replicate n DetailsGrid) + 1 - 1)%nat
        with (length ((st ++ [g]) ++ replicate n DetailsGrid))
        by (rewrite !length_app; simpl; lia).
      rewrite take_app_length.
      destruct (last ((st ++ [g]) ++ replicate n DetailsGrid)) as [l|] eqn:Hl; [done|].
      apply last_None in Hl. by destruct st. }
    unfold handle_key. rewrite Z.eqb_refl, Hpop.
    destruct (last ((st ++ [g]) ++ replicate n DetailsGrid)) as [l|] eqn:Hl;
      [|apply last_None in Hl; by destruct st].
    simpl.
    match goal with |- context [handle_keys _ _ ?a'] =>
      destruct (IH a' st g eq_refl) as (-> & -> & HB) end.
    split; [done|]. split; [done|]. intros _.
    destruct n as [|n]; [|by apply HB].
    simpl in *. rewrite app_nil_r, last_snoc in Hl. congruence.
Qed.

(** Every digit typed pushes the details panel once more, so after n
    digits it takes n times 'q' to be back on the main panel, still
    running; the next 'q' stops the loop. *)
Theorem quit_closes_one_panel_per_digit (termWidth : Z) (digits : list Z) (s : state) :
  Forall (λ k, 48 ≤ k ≤ 57) digits →
  let a := handle_keys termWidth (digits ++ replicate (length digits) 113)
             (start termWidth s) in
  uiStack a.2 = [MainGrid] ∧ Body a.2 = Some MainGrid ∧ running a.2 = true ∧
  running (handle_key termWidth 113 a).2 = false.
Proof.
  intros Hd a. unfold a. rewrite handle_keys_app.
  destruct (handle_digits termWidth digits (start termWidth s) Hd) as [Hst Hrun].
  destruct (handle_quits termWidth (length digits)
              (handle_keys termWidth digits (start termWidth s)) [] MainGrid Hst)
    as (Hst' & Hrun' & HB).
  pose proof (handle_keys_ok termWidth
                (digits ++ replicate (length digits) 113) (start termWidth s))
    as (_ & Hlast & _); [done|].
  rewrite handle_keys_app in Hlast. rewrite Hst' in Hlast. simpl in Hlast.
  split; [done|]. split; [done|]. split; [by rewrite Hrun', Hrun|].
  unfold handle_key, popPanel, len. rewrite Hst'. reflexivity.
Qed.

Lemma quit_closes_one_panel_per_digit_witness :
  uiStack (handle_keys 80 [51; 53; 113; 113] (start 80 (state_of [] 0 "" ∅ 0))).2
  = [MainGrid] ∧
  running (handle_keys 80 [51; 53; 113; 113; 113]
             (start 80 (state_of [] 0 "" ∅ 0))).2 = false.
Proof.
  destruct (quit_closes_one_panel_per_digit 80 [51; 53] (state_of [] 0 "" ∅ 0))
    as (Hst & _ & _ & Hq).
  - repeat constructor; lia.
  - split; [exact Hst|reflexivity].
Defined.

(** The keys change the index and, through the panels, the width; they
    leave the histories, the list, the selected id and the monitors as
    they are, and an index between 0 and 9 stays between 0 and 9. *)
Theorem keys_change_only_index_and_width (termWidth : Z) (keys : list Z)
    (a : state * panels) :
  statsData (handle_keys termWidth keys a).1 = statsData a.1 ∧
  allcontainers (handle_keys termWidth keys a).1 = allcontainers a.1 ∧
  containerDetailsID (handle_keys termWidth keys a).1 = containerDetailsID a.1 ∧
  monitors (handle_keys termWidth keys a).1 = monitors a.1 ∧
  (0 ≤ containerDetailsIndex a.1 ≤ 9 →
   0 ≤ containerDetailsIndex (handle_keys termWidth keys a).1 ≤ 9).
Proof.
  revert a. induction keys as [|k keys IH]; intros a; simpl; [done|].
  destruct (IH (handle_key termWidth k a)) as (-> & -> & -> & -> & Hidx).
  assert (Hk : statsData (handle_key termWidth k a).1 = statsData a.1 ∧
               allcontainers (handle_key termWidth k a).1 = allcontainers a.1 ∧
               containerDetailsID (handle_key termWidth k a).1 = containerDetailsID a.1 ∧
               monitors (handle_key termWidth k a).1 = monitors a.1 ∧
               (0 ≤ containerDetailsIndex a.1 ≤ 9 →
                0 ≤ containerDetailsIndex (handle_key termWidth k a).1 ≤ 9)).
  { unfold handle_key, popPanel.
    destruct (k =? 113); [destruct (len (uiStack a.2) <? 2);
      [|destruct (last _)]|];
    destruct (Z.leb_spec 48 k), (Z.leb_spec k 57); simpl; repeat split; lia. }
  destruct Hk as (-> & -> & -> & -> & Hidx').
  repeat split; try done; apply Hidx; auto.
Qed.

(** ** The volumes *)

Lemma string_compare_trans (a : string) : ∀ b c : string,
  String.compare a b ≠ Gt → String.compare b c ≠ Gt → String.compare a c ≠ Gt.
Proof.
  induction a as [|x a IH]; intros [|y b] [|z c]; simpl; try done.
  unfold Ascii.compare.
  destruct (N.compare_spec (Ascii.N_of_ascii x) (Ascii.N_of_ascii y)) as [Hxy|Hxy|Hxy];
    destruct (N.compare_spec (Ascii.N_of_ascii y) (Ascii.N_of_ascii z)) as [Hyz|Hyz|Hyz];
    destruct (N.compare_spec (Ascii.N_of_ascii x) (Ascii.N_of_ascii z)) as [Hxz|Hxz|Hxz];
    try done; try lia.
  apply IH.
Qed.

Global Instance string_le_total : Total string_le.
Proof. intros a b. apply String.leb_total. Qed.

Global Instance string_le_antisymm : AntiSymm (=) string_le.
Proof. intros a b. apply String.leb_antisym. Qed.

Global Instance string_le_trans : Transitive string_le.
Proof.
  intros a b c. unfold string_le, String.leb. intros Hab Hbc.
  pose proof (string_compare_trans a b c) as H.
  destruct (String.compare a b), (String.compare b c), (String.compare a c);
    try done; exfalso; by apply H.
Qed.

(** [genVolumes] gives one line per key, sorted by key, and the same lines
    in whatever order the map yields its keys. *)
Theorem genVolumes_sorted_whatever_the_order
    (keys keys' : list string) (volumes : gmap string string) :
  keys ≡ₚ keys' →
  genVolumes keys volumes = genVolumes keys' volumes ∧
  length (genVolumes keys volumes) = length keys ∧
  ∃ sorted, sorted ≡ₚ keys ∧ Sorted string_le sorted ∧
    genVolumes keys volumes
    = (λ k, k +:+ " -> " +:+ default "" (volumes !! k) +:+ " ") <$> sorted.
Proof.
  intros Hperm. unfold genVolumes, sort_strings.
  assert (Heq : merge_sort string_le keys = merge_sort string_le keys').
  { apply (Sorted_unique string_le); try apply Sorted_merge_sort; try apply _.
    by rewrite !merge_sort_Permutation. }
  split; [by rewrite Heq|].
  split; [by rewrite length_fmap, merge_sort_Permutation|].
  exists (merge_sort string_le keys).
  split; [apply merge_sort_Permutation|].
  split; [apply Sorted_merge_sort; apply _|done].
Qed.

Lemma genVolumes_sorted_whatever_the_order_witness :
  genVolumes ["/var"; "/data"; "/etc"]
    {[ "/var" := "/v1"; "/data" := "/v2"; "/etc" := "/v3" ]}
  = genVolumes ["/etc"; "/var"; "/data"]
      {[ "/var" := "/v1"; "/data" := "/v2"; "/etc" := "/v3" ]}.
Proof.
  apply (genVolumes_sorted_whatever_the_order
           ["/var"; "/data"; "/etc"] ["/etc"; "/var"; "/data"]).
  symmetry. apply (Permutation_cons_append ["/var"; "/data"] "/etc").
Defined.

(** ** The entries of the container list *)

Lemma containerList_step_conts (s : state) (i : nat) (c : Container) (a : list_acc) :
  match containerList_step s i c a with
  | Ok a' => nameless c = false ∧
             ∃ name, conts a' = conts a ++ [name] ∧ (String.length name ≤ 30)%nat
  | Panic p => p = IndexOutOfRange ∧ nameless c = true
  end.
Proof.
  unfold containerList_step, nameless.
  pose proof (genContainerListName_cases i c 30) as Hname.
  destruct (Names c) as [|n ns].
  - rewrite Hname by lia. done.
  - destruct Hname as (name & -> & Hle & _); [lia|]. simpl.
    destruct (statsData s !! Id c); simpl; eauto.
Qed.

Lemma containerList_conts_loop (s : state) (rest : list Container) :
  ∀ (i : nat) (a : list_acc),
  match foldM_i (containerList_step s) i rest a with
  | Ok a' => existsb nameless rest = false ∧
             ∃ names, conts a' = conts a ++ names ∧ length names = length rest ∧
                      Forall (λ name, (String.length name ≤ 30)%nat) names
  | Panic p => p = IndexOutOfRange ∧ existsb nameless rest = true
  end.
Proof.
  induction rest as [|c rest IH]; intros i a; simpl.
  - split; [done|]. exists []. by rewrite app_nil_r.
  - pose proof (containerList_step_conts s i c a) as Hstep.
    destruct (containerList_step s i c a) as [a1|p]; simpl.
    + destruct Hstep as (-> & name & Hconts & Hle). simpl.
      specialize (IH (S i) a1).
      destruct (foldM_i (containerList_step s) (S i) rest a1) as [a'|p]; [|done].
      destruct IH as (-> & names & Hc' & Hlen & Hall). split; [done|].
      exists (name :: names). rewrite Hc', Hconts, <- app_assoc.
      split; [done|]. split; [simpl; lia|by constructor].
    + destruct Hstep as [-> ->]. done.
Qed.

(** A refresh panics, with an index out of range, exactly when a listed
    container has no name.  Otherwise the list widget gets one entry per
    container, none longer than 30 characters, and is two rows higher than
    the number of containers. *)
Theorem containerList_items (cs : list Container) (s : state) :
  if existsb nameless cs
  then containerList (Some cs) s = Panic IndexOutOfRange
  else ∃ s1 w, containerList (Some cs) s = Ok (s1, Some w) ∧
               allcontainers s1 = cs ∧
               length (Items w) = length cs ∧ Height w = len cs + 2 ∧
               Forall (λ it, (String.length it ≤ 30)%nat) (Items w).
Proof.
  unfold containerList.
  change (for_range (length cs) (containerList_body cs s))
    with (for_range (length cs)
            (λ i a, do! c ← index cs (Z.of_nat i); containerList_step s i c a)).
  rewrite (for_range_foldM (containerList_step s)).
  pose proof (containerList_conts_loop s cs 0
                {| conts := []; detailsID := containerDetailsID s;
                   newstats := ∅; started := [] |}) as Hloop.
  destruct (foldM_i _ _ _ _) as [a'|p].
  - destruct Hloop as (-> & names & Hconts & Hlen & Hall). simpl in Hconts.
    eexists _, _. split; [done|]. simpl. rewrite Hconts.
    split; [done|]. split; [done|]. split; [unfold len; by rewrite Hlen|done].
  - destruct Hloop as [-> ->]. done.
Qed.

(** ** Witnesses of the facts on the percents *)

Lemma cpuPercent_stalled_witness :
  cpuPercent [cpu_snapshot 1 100 1000 4; cpu_snapshot 2 100 1100 4] 1 = Ok 0.
Proof.
  apply (cpuPercent_stalled
           [cpu_snapshot 1 100 1000 4; cpu_snapshot 2 100 1100 4] 0
           (cpu_snapshot 1 100 1000 4) (cpu_snapshot 2 100 1100 4));
    [reflexivity|reflexivity|by left].
Defined.

Lemma memusedP_in_range_witness : memusedP 512 1024 = Ok 50.
Proof.
  apply (memusedP_in_range 512 1024); vm_compute; congruence.
Defined.
